(** * lkcloud/errors: error stacks, their composition and rendering

    A shallow embedding of the Go package [errors] (the stack in [err.go],
    the frame type [Msg], the codes and their registry, the callers, and
    the mocks of the examples) together with the properties stated about
    it.

    Conventions of the embedding.
    - Go [int] and [uintptr] values (codes, line numbers, program counters,
      lengths) are [Z]; no arithmetic that could wrap is performed on them.
    - A run-time panic is an explicit outcome: fallible functions return
      [result A], either [Ok a] or [Panic why].
    - The process-wide registry [Codes] is a [gmap Z ErrCode] passed to the
      functions that read it.
    - What the Go runtime answers at a call ([getCaller()], [getTrace()]) is
      passed as an argument to the function that asks for it.
    - [fmt.Sprintf], [runtime.FuncForPC(pc).Name()] and [path.Base] belong to
      the Go standard library; the package is embedded over an arbitrary
      implementation of them (class [GoRuntime]), and a concrete instance
      is used to evaluate the package on concrete inputs. *)

From Stdlib Require Import ZArith Ascii String DecimalString.
From stdpp Require Import base option list strings gmap.

Local Open Scope string_scope.
Local Open Scope Z_scope.
Local Open Scope list_scope.

(** ** Outcomes: values and panics *)

Inductive fault : Type :=
  | NilDereference      (* method call through a nil interface or pointer *)
  | IndexOutOfRange     (* slice index or slice bound outside the slice *)
  | Deadlock            (* a goroutine locks a mutex it already holds *)
  | UnlockOfUnlocked.   (* Unlock of a mutex that is not locked *)

Inductive result (A : Type) : Type :=
  | Ok (a : A)
  | Panic (why : fault).

Arguments Ok {A} a.
Arguments Panic {A} why.

#[global] Instance result_ret : MRet result := fun A a => Ok a.

#[global] Instance result_bind : MBind result := fun A B k r =>
  match r with
  | Ok a => k a
  | Panic why => Panic why
  end.

#[global] Instance result_fmap : FMap result := fun A B f r =>
  match r with
  | Ok a => Ok (f a)
  | Panic why => Panic why
  end.

Definition faults {A} (r : result A) : Prop :=
  match r with Ok _ => False | Panic _ => True end.

(** ** Codes and the registry *)

Definition Code := Z.

Definition ErrSuccess : Code := 0.

Definition ErrUnknown : Code := 1.
Definition ErrFatal : Code := 2.
Definition ErrCodeNotFound : Code := 3.

Definition ErrDecodingFailed : Code := 100.
Definition ErrDecodingJSON : Code := 101.
Definition ErrDecodingToml : Code := 102.
Definition ErrDecodingYaml : Code := 103.
Definition ErrEncodingFailed : Code := 104.
Definition ErrEncodingJSON : Code := 105.
Definition ErrEncodingToml : Code := 106.
Definition ErrEncodingYaml : Code := 107.
Definition ErrInvalidJSON : Code := 108.
Definition ErrInvalidToml : Code := 109.
Definition ErrInvalidYaml : Code := 110.
Definition ErrTypeConversionFailed : Code := 111.

(** [ErrCode] is the one implementation of [Coder] stored in the registry. *)
Record ErrCode : Type := mkErrCode {
  Ext : string;   (* external (user) facing error text *)
  Int : string;   (* internal only (logs) error text *)
  HTTP : Z        (* HTTP status for the code *)
}.

Definition ErrCode_Detail (code : ErrCode) : string := Int code.

Definition ErrCode_String (code : ErrCode) : string := Ext code.

Definition ErrCode_HTTPStatus (code : ErrCode) : Z :=
  if 0 =? HTTP code then 200 else HTTP code.

(** The registry after the package's [init()]. *)
Definition Codes_init : gmap Z ErrCode :=
  <[ErrTypeConversionFailed := mkErrCode "data type conversion failed" "data type conversion failed" 0]>
  (<[ErrEncodingYaml := mkErrCode "YAML data could not be encoded" "YAML data could not be encoded" 0]>
  (<[ErrEncodingToml := mkErrCode "TOML data could not be encoded" "TOML data could not be encoded" 0]>
  (<[ErrEncodingJSON := mkErrCode "JSON data could not be encoded" "JSON data could not be encoded" 0]>
  (<[ErrDecodingYaml := mkErrCode "YAML data could not be decoded" "YAML data could not be decoded" 0]>
  (<[ErrDecodingToml := mkErrCode "TOML data could not be decoded" "TOML data could not be decoded" 0]>
  (<[ErrDecodingJSON := mkErrCode "JSON data could not be decoded" "JSON data could not be decoded" 0]>
  (<[ErrCodeNotFound := mkErrCode "code not found" "code not found" 0]>
  (<[ErrFatal := mkErrCode "a fatal error occurred" "a fatal error occurred" 0]>
  (<[ErrUnknown := mkErrCode "an unknown error occurred" "" 0]>
  (<[ErrSuccess := mkErrCode "ok" "ok" 0]> ∅)))))))))).

(** ** Callers *)

Record Call : Type := mkCall {
  loaded : bool;
  file : string;
  line : Z;
  ok : bool;
  pc : Z
}.

(** [Caller] is an interface; its only implementation is [Call], and the
    interface value may be nil ([None]). *)
Definition Caller := option Call.

Definition Trace := list Caller.

(** ** Errors, frames and stacks

    The dynamic type of a Go [error] value, as far as the package
    distinguishes it: nil, a [Msg] value, a pointer to a stack ([*Err]),
    a stack held by value ([Err], which has [Error()] on its value
    receiver), or any other error, of which only its text matters.
    A pointer to a stack is represented by the frames it points to, and
    is not nil; a stack held by value has its frames in storage of its
    own. The two inputs that these values leave out have definitions of
    their own below: a nil [*Err] held in a non-nil interface
    ([argument]) and an [Err] value whose slice views the backing array
    of the stack it is attached to ([Err_With_shared]). *)
Inductive error : Type :=
  | nil_error
  | errorString (s : string)
  | error_Msg (m : Msg)
  | error_ErrPtr (frames : list Msg)
  | error_Err (frames : list Msg)
with Msg : Type :=
  | mkMsg (err : error) (caller : Caller) (code : Code) (msg : string)
          (trace : Trace).

Definition err (m : Msg) : error := let 'mkMsg e _ _ _ _ := m in e.
Definition caller (m : Msg) : Caller := let 'mkMsg _ c _ _ _ := m in c.
Definition code (m : Msg) : Code := let 'mkMsg _ _ c _ _ := m in c.
Definition msg (m : Msg) : string := let 'mkMsg _ _ _ s _ := m in s.
Definition trace (m : Msg) : Trace := let 'mkMsg _ _ _ _ t := m in t.

(** The stack itself. The [mux] field only matters for the locking
    discipline and is modelled in module [Sync] below. *)
Record Err : Type := mkErr { errs : list Msg }.

(** What a caller can pass for a parameter of type [error]: one of the
    values above, or a nil [*Err] held in a non-nil interface, which
    compares unequal to nil and passes the assertion [err.( *Err)].
    [Wrap], [From] and [DecodeErr] fault on it before they build
    anything. [With] would store it in a frame; frames that hold one are
    not part of this model. *)
Inductive argument : Type :=
  | value (e : error)
  | nil_ErrPtr.

(** ** The part of the Go standard library the package calls *)

(** A value passed for a [...interface{}] parameter. *)
Inductive any : Type :=
  | VString (s : string)
  | VInt (n : Z).

Class GoRuntime : Type := {
  Sprintf : string -> list any -> string;   (* fmt.Sprintf(format, a...) *)
  FuncForPC_Name : Z -> string;             (* runtime.FuncForPC(pc).Name() *)
  path_Base : string -> string              (* path.Base(path) *)
}.

(** [fmt.Errorf(format, a...)]: an error whose text is the formatted
    string. *)
Definition Errorf `{GoRuntime} (format : string) (a : list any) : error :=
  errorString (Sprintf format a).

(** Indexing [l[i]] and slicing [l[:n]] with Go's bounds checks. *)
Definition index {A} (l : list A) (i : Z) : result A :=
  if (i <? 0) || (Z.of_nat (length l) <=? i) then Panic IndexOutOfRange
  else match l !! Z.to_nat i with
       | Some x => Ok x
       | None => Panic IndexOutOfRange
       end.

Definition slice_to {A} (l : list A) (n : Z) : result (list A) :=
  if (n <? 0) || (Z.of_nat (length l) <? n) then Panic IndexOutOfRange
  else Ok (take (Z.to_nat n) l).

Definition len {A} (l : list A) : Z := Z.of_nat (length l).

(** [strings.Trim(s, cutset)]: [s] without its leading and trailing
    characters that occur in [cutset]. *)
Fixpoint TrimLeft (s : string) (cutset : list ascii) : string :=
  match s with
  | EmptyString => EmptyString
  | String c s' =>
      if bool_decide (c ∈ cutset) then TrimLeft s' cutset else s
  end.

Definition TrimRight (s : string) (cutset : list ascii) : string :=
  String.rev (TrimLeft (String.rev s) cutset).

Definition Trim (s : string) (cutset : list ascii) : string :=
  TrimRight (TrimLeft s cutset) cutset.

Definition nl : string := String (ascii_of_nat 10) EmptyString.
Definition tab : string := String (ascii_of_nat 9) EmptyString.

(** ** Msg: one frame *)

Definition Msg_Caller (m : Msg) : Caller := caller m.

Definition Msg_Code (m : Msg) : Code := code m.

Definition Msg_Msg (m : Msg) : string := msg m.

Definition Msg_SetCode (m : Msg) (c : Code) : Msg :=
  mkMsg (err m) (caller m) c (msg m) (trace m).

Definition Msg_Trace (m : Msg) : Trace := trace m.

(** [Msg.String]: the frame's own message when it has no underlying error,
    otherwise the text of the underlying error, found by dynamic dispatch
    on [msg.err.Error()]. For a stack that is the text of its last frame,
    or the empty string when it has none ([Err.Error]). *)
Fixpoint Msg_String (m : Msg) : string :=
  match m with
  | mkMsg e _ _ s _ =>
      match e with
      | nil_error => s
      | errorString t => t
      | error_Msg m' => Msg_String m'
      | error_ErrPtr fs | error_Err fs =>
          (fix last_Error (l : list Msg) : string :=
             match l with
             | [] => ""
             | f :: l' =>
                 match l' with
                 | [] => Msg_String f
                 | _ :: _ => last_Error l'
                 end
             end) fs
      end
  end.

Definition Msg_Error (m : Msg) : string := Msg_String m.

(** ** Err: the stack (err.go) *)

Definition Err_Len (e : Err) : Z := len (errs e).

Definition Err_Last (e : Err) : result Msg :=
  index (errs e) (len (errs e) - 1).

Definition Err_Push (e : Err) (ms : list Msg) : Err :=
  mkErr (errs e ++ ms).

Definition Err_Caller (e : Err) : result Caller :=
  if 0 <? Err_Len e then m ← Err_Last e; Ok (Msg_Caller m)
  else Ok None.

(** [Cause] returns frame 0 itself, as an [error]. *)
Definition Err_Cause (e : Err) : result error :=
  if 0 <? Err_Len e then m ← index (errs e) 0; Ok (error_Msg m)
  else Ok nil_error.

Definition Err_Code (e : Err) : result Code :=
  if 0 <? Err_Len e then m ← Err_Last e; Ok (Msg_Code m)
  else Ok ErrUnknown.

Definition Err_Error (e : Err) : result string :=
  if 0 <? Err_Len e then m ← Err_Last e; Ok (Msg_Error m)
  else Ok "".

Definition Err_Msg (e : Err) : result string :=
  if 0 <? Err_Len e then m ← Err_Last e; Ok (Msg_Msg m)
  else Ok "".

Definition Err_Trace (e : Err) : Trace :=
  foldl (fun callers m => callers ++ [Msg_Caller m]) [] (errs e).

(** [err.Error()] on an [error] value: dispatch on its dynamic type. *)
Definition error_Error (e : error) : result string :=
  match e with
  | nil_error => Panic NilDereference
  | errorString s => Ok s
  | error_Msg m => Ok (Msg_Error m)
  | error_ErrPtr fs => Err_Error (mkErr fs)
  | error_Err fs => Err_Error (mkErr fs)
  end.

Section Package.

Context `{GoRuntime}.

(** The registry [Codes] as it stands when the functions below read it. *)
Variable Codes : gmap Z ErrCode.

Definition Err_Detail (e : Err) : result string :=
  if 0 <? Err_Len e then
    c ← Err_Code e;
    match Codes !! c with
    | Some code =>
        if negb (String.eqb "" (ErrCode_Detail code))
        then Ok (ErrCode_Detail code)
        else Err_Error e
    | None => Ok ""
    end
  else Ok "".

Definition Err_HTTPStatus (e : Err) : result Z :=
  if 0 <? Err_Len e then
    m ← Err_Last e;
    match Codes !! Msg_Code m with
    | Some code => Ok (ErrCode_HTTPStatus code)
    | None => Ok 200
    end
  else Ok 200.

(** *** Rendering ([Format]) *)

(** The flags of the [fmt.State] that [Format] inspects. *)
Record flags : Type := mkFlags { plus : bool; sharp : bool; minus : bool }.

Definition no_flags : flags := mkFlags false false false.

(** The registry entry used for a frame: the registered one, or one built
    from the frame's own error text when the code is not registered. *)
Definition frame_code (f : Msg) : ErrCode :=
  match Codes !! Msg_Code f with
  | Some code => code
  | None => mkErrCode (Msg_Error f) (Msg_Error f) 0
  end.

Definition errMsgInt (f : Msg) : string :=
  let code := frame_code f in
  let n := Sprintf "%d" [VInt (Msg_Code f)] in
  if negb (String.eqb "" (ErrCode_Detail code))
  then Sprintf "%s (code:%s)" [VString (ErrCode_Detail code); VString n]
  else Sprintf "%s (code:%s)" [VString (Msg_Error f); VString n].

Definition errMsgExt (f : Msg) : string :=
  let code := frame_code f in
  let n := Sprintf "%d" [VInt (Msg_Code f)] in
  if negb (String.eqb "" (ErrCode_String code))
  then Sprintf "%s (code:%s)" [VString (ErrCode_String code); VString n]
  else Sprintf "%s (code:%s)" [VString (Msg_Error f); VString n].

(** A method called on the frame's caller; the interface may be nil. *)
Definition the_caller (f : Msg) : result Call :=
  match Msg_Caller f with
  | Some c => Ok c
  | None => Panic NilDereference
  end.

Definition extended_lines (k : Z) (f : Msg) : result string :=
  c ← the_caller f;
  Ok (Sprintf ("#%d: `%s`" +:+ nl) [VInt k; VString (FuncForPC_Name (pc c))]
      +:+ Sprintf (tab +:+ "error:   %s" +:+ nl) [VString (Msg_Msg f)]
      +:+ Sprintf (tab +:+ "line:    %s:%d" +:+ nl)
            [VString (path_Base (file c)); VInt (line c)]
      +:+ Sprintf (tab +:+ "detail:  %s" +:+ nl) [VString (errMsgInt f)]
      +:+ Sprintf (tab +:+ "message: %s" +:+ nl) [VString (errMsgExt f)]).

Definition quote : string := String (ascii_of_nat 34) EmptyString.

Definition trace_line (ending : string) (k : Z) (f : Msg) : result string :=
  c ← the_caller f;
  Ok (Sprintf ("#%d - caller: " +:+ quote +:+ "%s:%d:%s" +:+ quote
               +:+ " error: " +:+ quote +:+ "%s" +:+ quote
               +:+ " detail: " +:+ quote +:+ "%s" +:+ quote +:+ ending)
        [VInt k; VString (path_Base (file c)); VInt (line c);
         VString (FuncForPC_Name (pc c)); VString (Msg_Msg f);
         VString (errMsgInt f)]).

(** The loop [for k := len(err.errs) - 1; k >= 0; k--] with [n = k + 1]
    iterations left and [str] the buffer written so far. Without a flag the
    first iteration writes the external message and returns. *)
Fixpoint Format_loop (st : flags) (frames : list Msg) (n : nat) (str : string)
  : result string :=
  match n with
  | O => Ok (Sprintf "%s" [VString (Trim str [" "; ascii_of_nat 10; ascii_of_nat 9]%char)])
  | S k =>
      f ← index frames (Z.of_nat k);
      if plus st then
        out ← extended_lines (Z.of_nat k) f;
        Format_loop st frames k (str +:+ out)
      else if sharp st then
        out ← trace_line nl (Z.of_nat k) f;
        Format_loop st frames k (str +:+ out)
      else if minus st then
        out ← trace_line " " (Z.of_nat k) f;
        Format_loop st frames k (str +:+ out)
      else Ok (Sprintf (errMsgExt f) [])
  end.

(** [Format(state, verb)]: the text written to [state]. *)
Definition Err_Format (st : flags) (verb : ascii) (e : Err) : result string :=
  if Ascii.eqb verb "v"
  then Format_loop st (errs e) (length (errs e)) ""
  else text ← Err_Error e; Ok (Sprintf text []).

(** [String()] is [fmt.Sprintf("%v", err)]: the verb [v] without flags. *)
Definition Err_String (e : Err) : result string :=
  Err_Format no_flags "v" e.

(** *** Construction and composition *)

(** [loc] is what [getCaller()] returns at the call and [tr] what
    [getTrace()] returns. *)
Definition New (c : Code) (format : string) (data : list any)
    (loc : Call) (tr : Trace) : Err :=
  mkErr [mkMsg (Errorf format data) (Some loc) c (Sprintf format data) tr].

(** On a stack [From] calls [SetCode] on the last frame, which works on a
    copy of the frame and returns it; the returned frame is dropped, and
    the stack handed in is returned. *)
Definition From (c : Code) (e : error) (loc : Call) : result Err :=
  match e with
  | error_ErrPtr fs =>
      top ← index fs (len fs - 1);
      let _ := Msg_SetCode top c in
      Ok (mkErr fs)
  | _ =>
      text ← error_Error e;
      Ok (mkErr [mkMsg e (Some loc) c text []])
  end.

Definition Wrap (e : error) (c : Code) (format : string) (data : list any)
    (loc : Call) (tr : Trace) : result Err :=
  let errs0 := mkErr [] in
  match e with
  | nil_error => Ok (New c format [] loc tr)
  | _ =>
      base ← match e with
             | error_ErrPtr fs => Ok (Err_Push errs0 fs)
             | error_Msg m => Ok (Err_Push errs0 [m])
             | _ =>
                 text ← error_Error e;
                 Ok (mkErr [mkMsg e (Some loc) 0 text []])
             end;
      Ok (Err_Push base
            [mkMsg (Errorf format data) (Some loc) c (Sprintf format data) []])
  end.

(** [With] works on the receiver in place and returns it; the result here
    is the receiver after the call. *)
Definition Err_With (s : Err) (e : error) (format : string) (data : list any)
    (loc : Call) : result Err :=
  match e with
  | nil_error => Ok s
  | _ =>
      if Err_Len s =? 0 then
        Ok (Err_Push s [mkMsg e (Some loc) 0 (Sprintf format data) []])
      else
        top ← Err_Last s;
        rest ← slice_to (errs s) (len (errs s) - 1);
        let s1 := mkErr rest in
        s2 ← match e with
             | error_Err msgs =>
                 Ok (Err_Push
                       (Err_Push s1 [mkMsg (Errorf format data) (Some loc) 0
                                           (Sprintf format data) []])
                       msgs)
             | error_Msg m =>
                 text ← Err_Error s1;
                 Ok (Err_Push s1 [mkMsg (Errorf format data) (Some loc) 0
                                        text []; m])
             | _ =>
                 Ok (Err_Push s1 [mkMsg e (Some loc) 0
                                        (Sprintf format data) []])
             end;
        Ok (Err_Push s2 [top])
  end.

(** *** Helpers on codes and the decode helper *)

(** [Codes[code].String()]: the lookup of a missing key yields the nil
    [Coder], and the method call on it faults. *)
Definition Codes_String (c : Code) : result string :=
  match Codes !! c with
  | Some entry => Ok (ErrCode_String entry)
  | None => Panic NilDereference
  end.

Definition Code_AsError (c : Code) (loc : Call) (tr : Trace) : result Err :=
  text ← Codes_String c;
  Ok (New c text [] loc tr).

Definition Code_New (c : Code) (format : string) (data : list any)
    (loc : Call) (tr : Trace) : Err :=
  New c format data loc tr.

Definition Code_Wrap (c : Code) (e : error) (format : string)
    (data : list any) (loc : Call) (tr : Trace) : result Err :=
  Wrap e c format data loc tr.

Definition DecodeErr (e : error) : result (Code * string) :=
  match e with
  | nil_error =>
      text ← Codes_String ErrSuccess;
      Ok (ErrSuccess, text)
  | error_ErrPtr fs =>
      c ← Err_Code (mkErr fs);
      text ← Err_String (mkErr fs);
      Ok (c, text)
  | _ =>
      text ← Codes_String ErrUnknown;
      Ok (ErrUnknown, text)
  end.

(** The text that [Format] appends for frame [k] when a flag is set. *)
Definition flagged_text (st : flags) (k : Z) (f : Msg) : result string :=
  if plus st then extended_lines k f
  else if sharp st then trace_line nl k f
  else trace_line " " k f.

Definition flagged (st : flags) : bool := plus st || sharp st || minus st.

(** [With] when the attached error is an [Err] value whose slice [msgs]
    views the backing array of the receiver from its first slot, as in
    [s.With( *s, msg)]. Cutting the top off keeps the array, so the push
    of the connector writes it into the slot that held the top; [msgs]
    still views that slot when it is long enough, and is spliced with the
    connector in it. *)
Definition Err_With_shared (s : Err) (msgs : list Msg) (format : string)
    (data : list any) (loc : Call) : result Err :=
  if Err_Len s =? 0 then
    Ok (Err_Push s [mkMsg (error_Err msgs) (Some loc) 0
                          (Sprintf format data) []])
  else
    top ← Err_Last s;
    rest ← slice_to (errs s) (len (errs s) - 1);
    let s1 := mkErr rest in
    let pushed :=
      mkMsg (Errorf format data) (Some loc) 0 (Sprintf format data) [] in
    let s2 := Err_Push s1 [pushed] in
    let viewed := <[length rest := pushed]> msgs in
    Ok (Err_Push (Err_Push s2 viewed) [top]).

(** [Wrap], [From] and [DecodeErr] on every argument. For a nil [*Err]:
    [Wrap] and [From] pass the assertion [err.( *Err)] and evaluate
    [e.errs]; [DecodeErr] takes the case [*Err] and calls [typed.Code()],
    which reaches [err.mux] in [Lock]. *)
Definition Wrap_arg (a : argument) (c : Code) (format : string)
    (data : list any) (loc : Call) (tr : Trace) : result Err :=
  match a with
  | value e => Wrap e c format data loc tr
  | nil_ErrPtr => Panic NilDereference
  end.

Definition From_arg (c : Code) (a : argument) (loc : Call) : result Err :=
  match a with
  | value e => From c e loc
  | nil_ErrPtr => Panic NilDereference
  end.

Definition DecodeErr_arg (a : argument) : result (Code * string) :=
  match a with
  | value e => DecodeErr e
  | nil_ErrPtr => Panic NilDereference
  end.

End Package.

(** ** Frames and stacks named in the properties *)

Section Frames.

Context `{GoRuntime}.

Implicit Types (init : list Msg) (top : Msg) (e : error) (c : Code)
  (format : string) (data : list any) (loc : Call).

(** The frame that [Wrap] pushes on top. *)
Definition wrap_frame c format data loc : Msg :=
  mkMsg (Errorf format data) (Some loc) c (Sprintf format data) [].

(** The connector frame: code 0, error and message the formatted text. *)
Definition connector format data loc : Msg :=
  mkMsg (Errorf format data) (Some loc) 0 (Sprintf format data) [].

(** [With] as the specification words it: pop the top frame, push a
    connector frame (code 0) carrying the new message, splice in the frames
    of the attached error (all frames of a stack, the frame itself for a
    frame value, a synthetic frame for any other error), push the top frame
    back. *)
Definition spec_spliced e loc : list Msg :=
  match e with
  | error_ErrPtr fs => fs
  | error_Err fs => fs
  | error_Msg m => [m]
  | _ =>
      [mkMsg e (Some loc) 0
             (match error_Error e with Ok text => text | Panic _ => "" end) []]
  end.

Definition With_spec init top e format data loc : Err :=
  mkErr (init ++ [connector format data loc] ++ spec_spliced e loc ++ [top]).

End Frames.

(** ** A concrete Go runtime

    [fmt.Sprintf] for format strings in which every [%] is directly
    followed by its verb, the verbs [%s], [%d], [%v] and [%%], and operands
    that are strings or ints: operands are substituted in order, a verb
    without operand prints [%!verb(MISSING)], a verb that does not fit its
    operand prints [%!verb(type=value)], and operands left over are listed
    in [%!(EXTRA ...)]. Flags, widths and other verbs are outside this
    model; it is only evaluated on format strings within it. *)
Module GoFmt.

Definition itoa (n : Z) : string := NilZero.string_of_int (Z.to_int n).

Definition typeName (x : any) : string :=
  match x with VString _ => "string" | VInt _ => "int" end.

Definition valueText (x : any) : string :=
  match x with VString s => s | VInt n => itoa n end.

Definition badVerb (verb : ascii) (x : any) : string :=
  "%!" +:+ String verb ("(" +:+ typeName x +:+ "=" +:+ valueText x +:+ ")").

Definition printArg (x : any) (verb : ascii) : string :=
  match x with
  | VString s =>
      if Ascii.eqb verb "v" || Ascii.eqb verb "s" then s else badVerb verb x
  | VInt n =>
      if Ascii.eqb verb "v" || Ascii.eqb verb "d" then itoa n
      else badVerb verb x
  end.

Fixpoint extraList (a : list any) : string :=
  match a with
  | [] => ""
  | x :: a' =>
      typeName x +:+ "=" +:+ valueText x +:+
      match a' with [] => "" | _ :: _ => ", " +:+ extraList a' end
  end.

Definition extra (a : list any) : string :=
  match a with
  | [] => ""
  | _ :: _ => "%!(EXTRA " +:+ extraList a +:+ ")"
  end.

Fixpoint doPrintf (format : string) (a : list any) : string :=
  match format with
  | EmptyString => extra a
  | String c rest =>
      if Ascii.eqb c "%" then
        match rest with
        | EmptyString => "%!(NOVERB)" +:+ extra a
        | String verb rest' =>
            if Ascii.eqb verb "%" then String "%" (doPrintf rest' a)
            else
              match a with
              | [] => "%!" +:+ String verb ("(MISSING)" +:+ doPrintf rest' [])
              | x :: a' => printArg x verb +:+ doPrintf rest' a'
              end
        end
      else String c (doPrintf rest a)
  end.

Definition Sprintf (format : string) (a : list any) : string :=
  doPrintf format a.

(** [path.Base]: the last element of the path, trailing slashes removed;
    ["."] for the empty path and ["/"] for a path of slashes only. *)
Fixpoint upToSlash (s : string) : string :=
  match s with
  | EmptyString => EmptyString
  | String c s' => if Ascii.eqb c "/" then EmptyString else String c (upToSlash s')
  end.

Definition Base (path : string) : string :=
  if String.eqb path "" then "."
  else
    let stripped := TrimLeft (String.rev path) ["/"%char] in
    let last := String.rev (upToSlash stripped) in
    if String.eqb last "" then "/" else last.

End GoFmt.

(** The runtime with a symbol table [symtab] from program counters to
    function names ([FuncForPC(pc).Name()] is empty for an unknown [pc]). *)
Definition go (symtab : gmap Z string) : GoRuntime :=
  {| Sprintf := GoFmt.Sprintf;
     FuncForPC_Name := fun pc => default "" (symtab !! pc);
     path_Base := GoFmt.Base |}.

(** ** The mocks of the examples *)

Definition ConfigurationNotValid : Code := 1000.

(** The registry after the mocks' [init()]. *)
Definition Codes_mocks : gmap Z ErrCode :=
  <[ConfigurationNotValid :=
      mkErrCode "Configuration not valid" "the configuration is invalid" 500]>
  Codes_init.

(** A function returning [*Err] as an [error]. *)
Definition as_error (e : Err) : error := error_ErrPtr (errs e).

Section Mocks.

Context `{GoRuntime}.

(** What the runtime reports inside each of the three functions. *)
Variables (loc_read loc_decode loc_load : Call) (tr : Trace).

Definition readConfig : result Err :=
  let e := Errorf "read: end of input" [] in
  Wrap e ErrUnknown "could not read configuration file" [] loc_read tr.

Definition decodeConfig : result Err :=
  e ← readConfig;
  Wrap (as_error e) ErrInvalidJSON "could not decode configuration data" []
       loc_decode tr.

Definition loadConfig : result Err :=
  e ← decodeConfig;
  Wrap (as_error e) ConfigurationNotValid
       "service configuration could not be loaded" [] loc_load tr.

End Mocks.

(** Call sites and symbols of the examples. *)
Definition mocks_test_go : string := "/src/github.com/lkcloud/errors/mocks_test.go".
Definition examples_test_go : string := "/src/github.com/lkcloud/errors/examples_test.go".

Definition at_readConfig : Call := mkCall false mocks_test_go 40 true 4040.
Definition at_decodeConfig : Call := mkCall false mocks_test_go 35 true 4035.
Definition at_loadConfig : Call := mkCall false mocks_test_go 30 true 4030.
Definition at_example : Call := mkCall false examples_test_go 36 true 5036.

Definition symbols : gmap Z string :=
  <[5036 := "github.com/lkcloud/errors_test.ExampleWrap_backtrace"]>
  (<[4030 := "github.com/lkcloud/errors_test.loadConfig"]>
  (<[4035 := "github.com/lkcloud/errors_test.decodeConfig"]>
  (<[4040 := "github.com/lkcloud/errors_test.readConfig"]> ∅))).

(** The runtime of the examples. *)
Definition example_runtime : GoRuntime := go symbols.

Section ExampleStacks.

#[local] Existing Instance example_runtime.

Definition example_loadConfig : result Err :=
  loadConfig at_readConfig at_decodeConfig at_loadConfig [].

(** A stack of one frame, as [Wrap] leaves it on top. *)
Definition one_frame : Err :=
  mkErr [wrap_frame ConfigurationNotValid
           "service configuration could not be loaded" [] at_loadConfig].

End ExampleStacks.

(** ** Capturing callers

    [runtime.Caller(skip)] answers from the goroutine's call stack, frame 0
    being the function that asks; past the last frame it answers
    [(0, "", 0, false)]. The call stack is a list of frames.
    [strings.HasSuffix] and [strings.Contains] compare bytes;
    [strings.ToLower] is taken from the runtime. *)

Record frame : Type := mkFrame { frame_pc : Z; frame_file : string; frame_line : Z }.

Definition runtime_Caller (stack : list frame) (skip : nat)
  : Z * string * Z * bool :=
  match stack !! skip with
  | Some fr => (frame_pc fr, frame_file fr, frame_line fr, true)
  | None => (0, "", 0, false)
  end.

Fixpoint Contains (s substr : string) : bool :=
  String.prefix substr s
  || match s with
     | EmptyString => false
     | String _ s' => Contains s' substr
     end.

Definition HasSuffix (s suffix : string) : bool :=
  String.prefix (String.rev suffix) (String.rev s).

Class GoStrings : Type := {
  ToLower : string -> string               (* strings.ToLower(s) *)
}.

Section Capture.

Context `{GoStrings}.

(** The test of [getCaller]: the file is outside the package, or it is one
    of the package's test files. *)
Definition outside_package (file : string) : bool :=
  negb (Contains (ToLower file) "github.com/lkcloud/errors")
  || HasSuffix (ToLower file) "_test.go".

(** The loop of [getCaller] at index [a]; [None] when [fuel] iterations
    were not enough. *)
Fixpoint getCaller_loop (stack : list frame) (fuel a : nat) : option Call :=
  match fuel with
  | O => None
  | S fuel' =>
      let '(pc, file, line, ok) := runtime_Caller stack a in
      let caller := mkCall false file line ok pc in
      if ok then
        if outside_package file then Some caller
        else getCaller_loop stack fuel' (S a)
      else Some caller
  end.

Definition getCaller (stack : list frame) : option Call :=
  getCaller_loop stack (S (length stack)) 0.

Fixpoint getTrace_loop (stack : list frame) (fuel a : nat) (trace : Trace)
  : option Trace :=
  match fuel with
  | O => None
  | S fuel' =>
      let '(pc, file, line, ok) := runtime_Caller stack a in
      let caller := mkCall false file line ok pc in
      if ok then getTrace_loop stack fuel' (S a) (trace ++ [Some caller])
      else Some trace
  end.

Definition getTrace (stack : list frame) : option Trace :=
  getTrace_loop stack (S (length stack)) 0 [].

End Capture.

(** The [Call] that holds a runtime frame. *)
Definition call_of (fr : frame) : Call :=
  mkCall false (frame_file fr) (frame_line fr) true (frame_pc fr).

(** The [Call] that [getCaller] is left with when [runtime.Caller] has no
    further frame. *)
Definition no_caller : Call := mkCall false "" 0 false 0.

(** [Call.String]. *)
Definition Call_String `{GoRuntime} (call : Call) : string :=
  Sprintf "%s:%d %s"
    [VString (file call); VInt (line call); VString (FuncForPC_Name (pc call))].

(** [strings.ToLower] on strings of ASCII characters. *)
Definition lower_ascii (c : ascii) : ascii :=
  let n := nat_of_ascii c in
  if (65 <=? n)%nat && (n <=? 90)%nat then ascii_of_nat (n + 32) else c.

Fixpoint lower_string (s : string) : string :=
  match s with
  | EmptyString => EmptyString
  | String c s' => String (lower_ascii c) (lower_string s')
  end.

Definition ascii_strings : GoStrings := {| ToLower := lower_string |}.

(** ** Frames with a caller, and chains of wraps *)

(** Every frame that the package builds holds a caller; a [Msg] value
    built elsewhere may hold none. *)
Definition located (m : Msg) : Prop := caller m <> None.

(** The frames that an error hands to [Wrap], [With] or [From] all hold a
    caller. *)
Definition located_error (e : error) : Prop :=
  match e with
  | error_Msg m => located m
  | error_ErrPtr fs => Forall located fs
  | error_Err fs => Forall located fs
  | _ => True
  end.

(** A call that returns a stack in which every frame holds a caller. *)
Definition returns_located (r : result Err) : Prop :=
  match r with
  | Ok w => Forall located (errs w)
  | Panic _ => False
  end.

(** One layer of context: the arguments of one call of [Wrap]. *)
Record layer : Type := mkLayer {
  layer_code : Code;
  layer_format : string;
  layer_data : list any;
  layer_loc : Call
}.

(** The frame that [Wrap] pushes for a layer. *)
Definition layer_frame `{GoRuntime} (l : layer) : Msg :=
  wrap_frame (layer_code l) (layer_format l) (layer_data l) (layer_loc l).

(** An error handed up through a chain of functions, each of which wraps
    what it received, as [readConfig], [decodeConfig] and [loadConfig]
    do. *)
Fixpoint wrap_chain `{GoRuntime} (e : error) (layers : list layer) (tr : Trace)
  : result error :=
  match layers with
  | [] => Ok e
  | l :: layers' =>
      w ← Wrap e (layer_code l) (layer_format l) (layer_data l)
             (layer_loc l) tr;
      wrap_chain (as_error w) layers' tr
  end.

(** ** The locking discipline (err.go: [Lock], [Unlock], [errMux])

    The methods once more, as run by one goroutine on a shared stack, with
    the [mux] field and with a log of what they do to the two mutexes and
    to the field [errs], in program order. *)
Module Sync.

Inductive event : Type :=
  | PkgLock        (* errMux.Lock() *)
  | PkgUnlock      (* errMux.Unlock() *)
  | NewMutex       (* err.mux = &sync.Mutex{} *)
  | StackLock      (* err.mux.Lock() *)
  | StackUnlock    (* err.mux.Unlock() *)
  | ReadErrs       (* a read of err.errs *)
  | WriteErrs.     (* an assignment to err.errs *)

(** The shared stack: its frames and its mutex, [None] for the nil pointer
    and [Some held] for a mutex that is held or free. *)
Record shared : Type := mkShared { frames : list Msg; mux : option bool }.

Record outcome (A : Type) : Type := mkOutcome {
  log : list event;
  after : shared;
  value : result A
}.

Arguments mkOutcome {A} log after value.
Arguments log {A} o.
Arguments after {A} o.
Arguments value {A} o.

Definition action (A : Type) : Type := shared -> outcome A.

#[export] Instance action_ret : MRet action :=
  fun A a st => mkOutcome [] st (Ok a).

#[export] Instance action_bind : MBind action := fun A B k m st =>
  match m st with
  | mkOutcome l st' (Ok a) =>
      match k a st' with
      | mkOutcome l' st'' v => mkOutcome (l ++ l') st'' v
      end
  | mkOutcome l st' (Panic why) => mkOutcome l st' (Panic why)
  end.

Definition emit (ev : event) : action unit :=
  fun st => mkOutcome [ev] st (Ok tt).

Definition lift {A} (r : result A) : action A :=
  fun st => mkOutcome [] st r.

Definition get_mux : action (option bool) :=
  fun st => mkOutcome [] st (Ok (mux st)).

Definition set_mux (m : option bool) : action unit :=
  fun st => mkOutcome [] (mkShared (frames st) m) (Ok tt).

Definition read_errs : action (list Msg) :=
  fun st => mkOutcome [ReadErrs] st (Ok (frames st)).

Definition write_errs (fs : list Msg) : action unit :=
  fun st => mkOutcome [WriteErrs] (mkShared fs (mux st)) (Ok tt).

Definition Lock : action unit :=
  emit PkgLock;;
  m ← get_mux;
  (match m with
   | None => emit NewMutex;; set_mux (Some false)
   | Some _ => mret tt
   end);;
  emit PkgUnlock;;
  m ← get_mux;
  match m with
  | Some false => emit StackLock;; set_mux (Some true)
  | Some true => lift (Panic Deadlock)
  | None => lift (Panic NilDereference)
  end.

Definition Unlock : action unit :=
  m ← get_mux;
  match m with
  | Some true => emit StackUnlock;; set_mux (Some false)
  | Some false => lift (Panic UnlockOfUnlocked)
  | None => lift (Panic NilDereference)
  end.

Definition Len : action Z :=
  Lock;;
  fs ← read_errs;
  Unlock;;
  mret (len fs).

Definition Last : action Msg :=
  Lock;;
  fs ← read_errs;
  fs' ← read_errs;
  m ← lift (index fs (len fs' - 1));
  Unlock;;
  mret m.

Definition Push (ms : list Msg) : action unit :=
  Lock;;
  fs ← read_errs;
  write_errs (fs ++ ms);;
  Unlock.

Definition Cause : action error :=
  n ← Len;
  if 0 <? n then
    fs ← read_errs;
    m ← lift (index fs 0);
    mret (error_Msg m)
  else mret nil_error.

Definition Code : action Z :=
  n ← Len;
  if 0 <? n then m ← Last; mret (Msg_Code m)
  else mret ErrUnknown.

Definition Trace : action (list Caller) :=
  fs ← read_errs;
  mret (foldl (fun callers m => callers ++ [Msg_Caller m]) [] fs).

(** The first statements of the second branch of [With]:
    [top := err.Last()] and [err.errs = err.errs[:len(err.errs)-1]]. *)
Definition With_pop : action Msg :=
  top ← Last;
  fs ← read_errs;
  fs' ← read_errs;
  rest ← lift (slice_to fs (len fs' - 1));
  write_errs rest;;
  mret top.

(** Every access to [errs] in the log happens while the stack's mutex is
    held; [held] tells whether it is held at the start. *)
Fixpoint guarded (held : bool) (l : list event) : bool :=
  match l with
  | [] => true
  | StackLock :: l' => guarded true l'
  | StackUnlock :: l' => guarded false l'
  | ReadErrs :: l' => held && guarded held l'
  | WriteErrs :: l' => held && guarded held l'
  | _ :: l' => guarded held l'
  end.

End Sync.

(** * Properties *)

(** ** The concrete runtime and the documented examples *)

Example Sprintf_code : GoFmt.Sprintf "%s (code:%s)" [VString "ok"; VString "7"] = "ok (code:7)".
Proof. reflexivity. Qed.

Example Sprintf_missing : GoFmt.Sprintf "open %s: %d" [VString "a.txt"] = "open a.txt: %!d(MISSING)".
Proof. reflexivity. Qed.

Example Sprintf_extra : GoFmt.Sprintf "done" [VString "x"; VInt 5] = "done%!(EXTRA string=x, int=5)".
Proof. reflexivity. Qed.

Example Sprintf_int : GoFmt.Sprintf "%d" [VInt (-12)] = "-12".
Proof. reflexivity. Qed.

Example Base_file : GoFmt.Base "/go/src/github.com/lkcloud/errors/mocks_test.go" = "mocks_test.go".
Proof. reflexivity. Qed.

Example Base_slashes : GoFmt.Base "///" = "/" /\ GoFmt.Base "" = "." /\ GoFmt.Base "a/b/" = "b".
Proof. repeat split; reflexivity. Qed.

Section Examples.

#[local] Existing Instance example_runtime.

(** The outputs documented in examples_test.go for [ExampleNew],
    [ExampleFrom], [ExampleErr_With], [ExampleDetail] and
    [ExampleHTTPStatus], reproduced by the embedding. *)
Example ExampleNew :
  Err_String Codes_mocks (New 1 "this is an error message" [] at_example [])
    = Ok "an unknown error occurred (code:1)"
  /\ Err_String Codes_mocks
       (New ErrFatal "this is an error message" [] at_example [])
    = Ok "a fatal error occurred (code:2)".
Proof. split; vm_compute; reflexivity. Qed.

Example ExampleFrom :
  (e ← From 1 (errorString "my error") at_example; Err_String Codes_mocks e)
    = Ok "an unknown error occurred (code:1)"
  /\ (e ← From 1 (errorString "my error") at_example; Err_Detail Codes_mocks e)
    = Ok "my error".
Proof. split; vm_compute; reflexivity. Qed.

Example ExampleErr_With :
  (e ← example_loadConfig;
   e' ← Err_With e
          (as_error (New 1 "failed to load configuration" [] at_example []))
          "loadConfig returned an error" [] at_example;
   Err_String Codes_mocks e')
    = Ok "Configuration not valid (code:1000)".
Proof. vm_compute; reflexivity. Qed.

Example ExampleDetail :
  (e ← example_loadConfig;
   e' ← Wrap (as_error e) 1 "failed to load configuration" [] at_example [];
   Err_Detail Codes_mocks e')
    = Ok "failed to load configuration".
Proof. vm_compute; reflexivity. Qed.

Example ExampleHTTPStatus :
  (e ← example_loadConfig;
   e' ← Wrap (as_error e) ConfigurationNotValid
          "failed to load configuration" [] at_example [];
   Err_HTTPStatus Codes_mocks e')
    = Ok 500.
Proof. vm_compute; reflexivity. Qed.

End Examples.

(** ** Slices *)

Section Slices.

Context {A : Type}.
Implicit Types (l : list A) (x : A).

Lemma len_app l1 l2 : len (l1 ++ l2) = len l1 + len l2.
Proof. unfold len. rewrite length_app. lia. Qed.

Lemma len_nonneg l : 0 <= len l.
Proof. unfold len. lia. Qed.

Lemma len_pos_snoc l : 0 < len l -> exists l' x, l = l' ++ [x].
Proof.
  destruct l as [|y l] using rev_ind; [unfold len; simpl; lia|].
  intros _. by exists l, y.
Qed.

Lemma index_lookup l i x :
  l !! i = Some x -> index l (Z.of_nat i) = Ok x.
Proof.
  intros Hx. unfold index.
  pose proof (lookup_lt_Some _ _ _ Hx) as Hlt.
  destruct (Z.ltb_spec (Z.of_nat i) 0); [lia|].
  destruct (Z.leb_spec (Z.of_nat (length l)) (Z.of_nat i)); [lia|].
  simpl. by rewrite Nat2Z.id, Hx.
Qed.

Lemma index_last l x : index (l ++ [x]) (len (l ++ [x]) - 1) = Ok x.
Proof.
  replace (len (l ++ [x]) - 1) with (Z.of_nat (length l))
    by (rewrite len_app; unfold len; simpl; lia).
  apply index_lookup. by rewrite lookup_app_r, Nat.sub_diag.
Qed.

Lemma index_first x l : index (x :: l) 0 = Ok x.
Proof. by apply (index_lookup (x :: l) 0%nat). Qed.

Lemma index_empty i : index (@nil A) i = Panic IndexOutOfRange.
Proof.
  unfold index. simpl.
  by destruct ((i <? 0) || (Z.of_nat 0 <=? i)).
Qed.

Lemma slice_to_last l x : slice_to (l ++ [x]) (len (l ++ [x]) - 1) = Ok l.
Proof.
  replace (len (l ++ [x]) - 1) with (Z.of_nat (length l))
    by (rewrite len_app; unfold len; simpl; lia).
  unfold slice_to.
  destruct (Z.ltb_spec (Z.of_nat (length l)) 0); [lia|].
  destruct (Z.ltb_spec (Z.of_nat (length (l ++ [x]))) (Z.of_nat (length l)))
    as [Hlt|_]; [rewrite length_app in Hlt; lia|].
  simpl. by rewrite Nat2Z.id, take_app_length.
Qed.

End Slices.

(** ** The accessors on a stack with a top frame *)

Section Accessors.

Implicit Types (fs : list Msg) (top : Msg).

Lemma Err_Len_pos fs top : (0 <? Err_Len (mkErr (fs ++ [top]))) = true.
Proof.
  apply Z.ltb_lt. unfold Err_Len. simpl. rewrite len_app.
  pose proof (len_nonneg fs). unfold len at 2. simpl. lia.
Qed.

Lemma Err_Len_nonzero fs top : (Err_Len (mkErr (fs ++ [top])) =? 0) = false.
Proof. pose proof (Err_Len_pos fs top) as Hp. apply Z.ltb_lt in Hp. apply Z.eqb_neq. lia. Qed.

Lemma Err_Last_snoc fs top : Err_Last (mkErr (fs ++ [top])) = Ok top.
Proof. apply index_last. Qed.

Lemma Err_Code_snoc fs top : Err_Code (mkErr (fs ++ [top])) = Ok (code top).
Proof. unfold Err_Code. by rewrite Err_Len_pos, Err_Last_snoc. Qed.

Lemma Err_Error_snoc fs top :
  Err_Error (mkErr (fs ++ [top])) = Ok (Msg_String top).
Proof. unfold Err_Error. by rewrite Err_Len_pos, Err_Last_snoc. Qed.

Lemma Err_Msg_snoc fs top : Err_Msg (mkErr (fs ++ [top])) = Ok (msg top).
Proof. unfold Err_Msg. by rewrite Err_Len_pos, Err_Last_snoc. Qed.

Lemma Err_Cause_cons f fs : Err_Cause (mkErr (f :: fs)) = Ok (error_Msg f).
Proof.
  unfold Err_Cause.
  replace (0 <? Err_Len (mkErr (f :: fs))) with true;
    [cbn [errs]; by rewrite index_first|].
  symmetry. apply Z.ltb_lt. unfold Err_Len, len. simpl. lia.
Qed.

(** [Err.Error] never faults: the result is the text of the last frame, or
    the empty string. *)
Lemma Err_Error_total e : exists text, Err_Error e = Ok text.
Proof.
  destruct e as [fs]. destruct fs as [|f fs] using rev_ind.
  - by exists "".
  - exists (Msg_String f). apply Err_Error_snoc.
Qed.

(** The local recursion in [Msg_String] is [Err.Error]. *)
Lemma Msg_String_unfold m :
  Ok (Msg_String m) =
    match err m with
    | nil_error => Ok (msg m)
    | e => error_Error e
    end.
Proof.
  destruct m as [e c cd s t]. simpl err. simpl msg.
  assert (Hstack : forall fs,
    Ok ((fix last_Error (l : list Msg) : string :=
           match l with
           | [] => ""
           | f :: l' =>
               match l' with
               | [] => Msg_String f
               | _ :: _ => last_Error l'
               end
           end) fs) = Err_Error (mkErr fs)).
  { intros fs. destruct fs as [|top fs _] using rev_ind; [done|].
    rewrite Err_Error_snoc. f_equal.
    induction fs as [|f fs IH]; [done|].
    simpl. rewrite IH. by destruct fs. }
  destruct e; simpl; try done; apply Hstack.
Qed.

(** [Error()] faults on a nil error only. *)
Lemma error_Error_total e : e <> nil_error -> exists text, error_Error e = Ok text.
Proof.
  destruct e; simpl; intros Hnil; [done|eauto..| |]; apply Err_Error_total.
Qed.

End Accessors.

(** ** Wrap *)

Section WrapProperties.

Context `{GoRuntime}.

Implicit Types (s : Err) (fs : list Msg) (c : Code) (format : string)
  (data : list any) (loc : Call) (tr : Trace).

Lemma Wrap_stack fs c format data loc tr :
  Wrap (error_ErrPtr fs) c format data loc tr
  = Ok (mkErr (fs ++ [wrap_frame c format data loc])).
Proof. reflexivity. Qed.

Lemma Wrap_frame_value m c format data loc tr :
  Wrap (error_Msg m) c format data loc tr
  = Ok (mkErr [m; wrap_frame c format data loc]).
Proof. reflexivity. Qed.

Lemma Wrap_foreign text c format data loc tr :
  Wrap (errorString text) c format data loc tr
  = Ok (mkErr [mkMsg (errorString text) (Some loc) 0 text [];
               wrap_frame c format data loc]).
Proof. reflexivity. Qed.

(** On nil [Wrap] returns [New(code, msg)], called without [data]. *)
Lemma Wrap_nil c format data loc tr :
  Wrap nil_error c format data loc tr = Ok (New c format [] loc tr).
Proof. reflexivity. Qed.

(** On the values of [error], [Wrap] does not fault. *)
Lemma Wrap_total e c format data loc tr :
  exists w, Wrap e c format data loc tr = Ok w.
Proof.
  destruct e as [|text|m|fs|fs]; try (eexists; reflexivity).
  unfold Wrap. simpl.
  destruct (Err_Error_total (mkErr fs)) as [text ->]. simpl. eauto.
Qed.

(** C1. For every stack [s] with at least one frame, [Wrap] copies the
    frames of [s] in order and appends one frame, [Cause] of [s] is its
    first frame, and [Cause] of the wrapped stack is the same value. *)
Theorem Wrap_preserves_Cause s c format data loc tr :
  0 < Err_Len s ->
  (exists top,
     Wrap (as_error s) c format data loc tr = Ok (mkErr (errs s ++ [top])))
  /\ (exists root, Err_Cause s = Ok (error_Msg root))
  /\ (Wrap (as_error s) c format data loc tr ≫= Err_Cause) = Err_Cause s.
Proof.
  destruct s as [[|root fs]]; intros Hlen.
  - unfold Err_Len, len in Hlen. simpl in Hlen. lia.
  - unfold as_error. cbn [errs]. rewrite Wrap_stack. split; [|split].
    + eauto.
    + exists root. apply Err_Cause_cons.
    + cbn [mbind result_bind]. rewrite <- app_comm_cons.
      by rewrite !Err_Cause_cons.
Qed.

(** C2. [Wrap] of nil has one frame; [Wrap] of a stack of [k] frames has
    [k + 1] frames; [Wrap] of a foreign error has two frames, the first of
    them built from the error's text with code 0. *)
Theorem Wrap_Len c format data loc tr :
  Err_Len <$> Wrap nil_error c format data loc tr = Ok 1
  /\ (forall s,
        Err_Len <$> Wrap (as_error s) c format data loc tr
        = Ok (Err_Len s + 1))
  /\ (forall text,
        error_Error (errorString text) = Ok text
        /\ (exists top,
              Wrap (errorString text) c format data loc tr
              = Ok (mkErr [mkMsg (errorString text) (Some loc) 0 text []; top])
              /\ code top = c)
        /\ Err_Len <$> Wrap (errorString text) c format data loc tr = Ok 2).
Proof.
  split; [reflexivity|split].
  - intros [fs]. unfold as_error. cbn [errs]. rewrite Wrap_stack.
    cbn [fmap result_fmap]. f_equal. unfold Err_Len. cbn [errs].
    rewrite len_app. reflexivity.
  - intros text. split; [reflexivity|split; [|reflexivity]].
    rewrite Wrap_foreign. eauto.
Qed.

End WrapProperties.

(** ** With *)

Section WithProperties.

Context `{GoRuntime}.

Implicit Types (s : Err) (init fs : list Msg) (top : Msg) (e : error)
  (format : string) (data : list any) (loc : Call).

Lemma With_nil s format data loc : Err_With s nil_error format data loc = Ok s.
Proof. reflexivity. Qed.

(** On a stack without frames [With] pushes one frame with code 0. *)
Lemma With_empty e format data loc :
  e <> nil_error ->
  Err_With (mkErr []) e format data loc
  = Ok (mkErr [mkMsg e (Some loc) 0 (Sprintf format data) []]).
Proof. by destruct e. Qed.

Ltac with_top :=
  unfold Err_With; rewrite Err_Len_nonzero, Err_Last_snoc;
  cbn [mbind result_bind errs]; rewrite slice_to_last;
  cbn [mbind result_bind]; unfold Err_Push, connector; cbn [errs].

Lemma With_stack_value init top fs format data loc :
  Err_With (mkErr (init ++ [top])) (error_Err fs) format data loc
  = Ok (mkErr (init ++ [connector format data loc] ++ fs ++ [top])).
Proof. with_top. by rewrite <- !app_assoc. Qed.

Lemma With_frame_value init top m format data loc :
  exists text,
    Err_Error (mkErr init) = Ok text
    /\ Err_With (mkErr (init ++ [top])) (error_Msg m) format data loc
       = Ok (mkErr (init ++ [mkMsg (Errorf format data) (Some loc) 0 text []; m]
                    ++ [top])).
Proof.
  destruct (Err_Error_total (mkErr init)) as [text Htext].
  exists text. split; [done|]. with_top. rewrite Htext.
  cbn [mbind result_bind errs]. by rewrite <- !app_assoc.
Qed.

Lemma With_foreign init top text format data loc :
  Err_With (mkErr (init ++ [top])) (errorString text) format data loc
  = Ok (mkErr (init ++ [mkMsg (errorString text) (Some loc) 0
                              (Sprintf format data) []] ++ [top])).
Proof. with_top. by rewrite <- !app_assoc. Qed.

(** A pointer to a stack is neither an [Err] value nor a [Msg] value, and
    takes the last branch: one frame that holds the pointer. *)
Lemma With_stack_pointer init top fs format data loc :
  Err_With (mkErr (init ++ [top])) (error_ErrPtr fs) format data loc
  = Ok (mkErr (init ++ [mkMsg (error_ErrPtr fs) (Some loc) 0
                              (Sprintf format data) []] ++ [top])).
Proof. with_top. by rewrite <- !app_assoc. Qed.

(** Whatever is attached, the frames below the top stay in place and the
    top frame is pushed back last. *)
Lemma With_keeps_top init top e format data loc :
  exists mid,
    Err_With (mkErr (init ++ [top])) e format data loc
    = Ok (mkErr (init ++ mid ++ [top])).
Proof.
  destruct e as [|text|m|fs|fs].
  - exists []. by rewrite With_nil.
  - eexists. apply With_foreign.
  - destruct (With_frame_value init top m format data loc) as (text & _ & ->).
    eauto.
  - eexists. apply With_stack_pointer.
  - exists (connector format data loc :: fs). apply With_stack_value.
Qed.

(** On the values of [error], [With] does not fault. *)
Lemma With_total s e format data loc : exists w, Err_With s e format data loc = Ok w.
Proof.
  destruct s as [fs]. destruct fs as [|top init _] using rev_ind.
  - destruct e; eexists; reflexivity.
  - destruct (With_keeps_top init top e format data loc) as [mid ->]. eauto.
Qed.

(** When the attached [Err] value views the receiver's own array, the
    frame spliced from the slot of the popped top is the connector. *)
Lemma With_shared_value init top msgs format data loc :
  Err_With_shared (mkErr (init ++ [top])) msgs format data loc
  = Ok (mkErr (init ++ [connector format data loc]
               ++ <[length init := connector format data loc]> msgs
               ++ [top])).
Proof.
  unfold Err_With_shared. rewrite Err_Len_nonzero, Err_Last_snoc.
  cbn [mbind result_bind errs]. rewrite slice_to_last.
  cbn [mbind result_bind]. unfold Err_Push, connector. cbn [errs].
  by rewrite <- !app_assoc.
Qed.

(** What [With] puts between the kept frames and the top is empty for nil
    only. *)
Lemma With_keeps_top_nil init top e format data loc :
  exists mid,
    Err_With (mkErr (init ++ [top])) e format data loc
    = Ok (mkErr (init ++ mid ++ [top]))
    /\ (mid = [] <-> e = nil_error).
Proof.
  destruct e as [|text|m|fs|fs].
  - exists []. by rewrite With_nil.
  - eexists. split; [apply With_foreign|]. by split.
  - destruct (With_frame_value init top m format data loc) as (text & _ & ->).
    eexists. split; [reflexivity|]. by split.
  - eexists. split; [apply With_stack_pointer|]. by split.
  - exists (connector format data loc :: fs).
    split; [apply With_stack_value|]. by split.
Qed.

(** C3 (as amended). On a stack [init ++ [top]], for every attached error,
    a pointer to a stack included, [With] keeps [init] in place and pushes
    [top] back last, and puts something between them unless the error is
    nil. Between them it puts, for a stack held by value in storage of its
    own, the connector (code 0, error and message the formatted text)
    followed by all frames of that stack; for a stack held by value that
    views the receiver's array, the same with the connector in the slot of
    the popped top, so that [s.With( *s, msg)] splices the kept frames and
    the connector; for a frame value, a code-0 connector whose error is the
    formatted text, followed by that frame; and for a foreign error one
    single code-0 frame that holds the error and has the formatted text as
    message. *)
Theorem With_splices init top format data loc :
  (forall e, exists mid,
     Err_With (mkErr (init ++ [top])) e format data loc
     = Ok (mkErr (init ++ mid ++ [top]))
     /\ (mid = [] <-> e = nil_error))
  /\ (forall fs,
        Err_With (mkErr (init ++ [top])) (error_Err fs) format data loc
        = Ok (mkErr (init ++ [connector format data loc] ++ fs ++ [top])))
  /\ (forall fs,
        Err_With_shared (mkErr (init ++ [top])) fs format data loc
        = Ok (mkErr (init ++ [connector format data loc]
                     ++ <[length init := connector format data loc]> fs
                     ++ [top])))
  /\ Err_With_shared (mkErr (init ++ [top])) (init ++ [top]) format data loc
     = Ok (mkErr (init ++ [connector format data loc]
                  ++ (init ++ [connector format data loc]) ++ [top]))
  /\ (forall m, exists text,
        Err_With (mkErr (init ++ [top])) (error_Msg m) format data loc
        = Ok (mkErr (init ++ [mkMsg (Errorf format data) (Some loc) 0 text []; m]
                     ++ [top])))
  /\ (forall text,
        Err_With (mkErr (init ++ [top])) (errorString text) format data loc
        = Ok (mkErr (init ++ [mkMsg (errorString text) (Some loc) 0
                                    (Sprintf format data) []] ++ [top]))).
Proof.
  split; [|split; [|split; [|split; [|split]]]].
  - intros e. apply With_keeps_top_nil.
  - intros fs. apply With_stack_value.
  - intros fs. apply With_shared_value.
  - rewrite With_shared_value. do 4 f_equal.
    rewrite insert_app_r_alt by lia. by rewrite Nat.sub_diag.
  - intros m.
    destruct (With_frame_value init top m format data loc) as (text & _ & Hw).
    eauto.
  - intros text. apply With_foreign.
Qed.

(** C4 (as amended). For every stack with at least one frame, [Code] after
    [With] is [Code] before it, whatever is attached. *)
Theorem With_preserves_Code s e format data loc :
  0 < Err_Len s ->
  exists c,
    Err_Code s = Ok c
    /\ (Err_With s e format data loc ≫= Err_Code) = Ok c.
Proof.
  destruct s as [fs]. intros Hlen.
  destruct (len_pos_snoc fs Hlen) as (init & top & ->).
  exists (code top). split; [apply Err_Code_snoc|].
  destruct (With_keeps_top init top e format data loc) as [mid ->].
  cbn [mbind result_bind]. rewrite app_assoc. apply Err_Code_snoc.
Qed.

End WithProperties.

(** ** Accessors on a stack without frames *)

Section EmptyStack.

Context `{GoRuntime}.
Variable Codes : gmap Z ErrCode.

(** [Last] indexes at [len - 1] without a check. *)
Lemma Last_empty : Err_Last (mkErr []) = Panic IndexOutOfRange.
Proof. reflexivity. Qed.

(** C5 (as amended). On a stack without frames the accessors that test
    [Len] first return their defaults and do not fault: [Code] the unknown
    code (1), [Msg], [Error] and [Detail] the empty string, [Cause] nil,
    [Caller] nil, [HTTPStatus] 200, [Trace] nothing, [Len] 0. *)
Theorem accessors_empty :
  Err_Code (mkErr []) = Ok ErrUnknown
  /\ Err_Msg (mkErr []) = Ok ""
  /\ Err_Error (mkErr []) = Ok ""
  /\ Err_Detail Codes (mkErr []) = Ok ""
  /\ Err_Cause (mkErr []) = Ok nil_error
  /\ Err_Caller (mkErr []) = Ok None
  /\ Err_HTTPStatus Codes (mkErr []) = Ok 200
  /\ Err_Trace (mkErr []) = []
  /\ Err_Len (mkErr []) = 0.
Proof. repeat split. Qed.

End EmptyStack.

(** ** Detail and the rendered detail text *)

Section DetailProperties.

Context `{GoRuntime}.
Variable Codes : gmap Z ErrCode.

Implicit Types (init : list Msg) (top f : Msg).

(** [Detail] looks the code up and falls back to the error text only
    inside the branch for a registered code; for an unregistered code it
    falls through to the final [return ""]. *)
Lemma Detail_unregistered init top :
  Codes !! code top = None ->
  Err_Detail Codes (mkErr (init ++ [top])) = Ok "".
Proof.
  intros Hnone. unfold Err_Detail.
  rewrite Err_Len_pos, Err_Code_snoc. cbn [mbind result_bind].
  by rewrite Hnone.
Qed.

Lemma Detail_registered init top entry :
  Codes !! code top = Some entry ->
  Err_Detail Codes (mkErr (init ++ [top]))
  = Ok (if String.eqb "" (Int entry) then Msg_String top else Int entry).
Proof.
  intros Hsome. unfold Err_Detail.
  rewrite Err_Len_pos, Err_Code_snoc. cbn [mbind result_bind].
  rewrite Hsome. unfold ErrCode_Detail.
  destruct (String.eqb "" (Int entry)); [|done].
  apply Err_Error_snoc.
Qed.

(** [Format] builds an entry from the frame's error text when the code is
    not registered, so the rendered detail and message are that text. *)
Lemma errMsgInt_unregistered f :
  Codes !! Msg_Code f = None ->
  errMsgInt Codes f
  = Sprintf "%s (code:%s)"
      [VString (Msg_Error f); VString (Sprintf "%d" [VInt (Msg_Code f)])].
Proof.
  intros Hnone. unfold errMsgInt, frame_code. rewrite Hnone.
  cbn [ErrCode_Detail Int]. by destruct (String.eqb "" (Msg_Error f)).
Qed.

Lemma errMsgExt_unregistered f :
  Codes !! Msg_Code f = None ->
  errMsgExt Codes f
  = Sprintf "%s (code:%s)"
      [VString (Msg_Error f); VString (Sprintf "%d" [VInt (Msg_Code f)])].
Proof.
  intros Hnone. unfold errMsgExt, frame_code. rewrite Hnone.
  cbn [ErrCode_String Ext]. by destruct (String.eqb "" (Msg_Error f)).
Qed.

End DetailProperties.

(** ** From *)

Section FromProperties.

Implicit Types (c : Code) (e : error) (fs : list Msg) (loc : Call).

(** On a stack [From] returns the stack as it was handed in. *)
Lemma From_stack init top c loc :
  From c (error_ErrPtr (init ++ [top])) loc = Ok (mkErr (init ++ [top])).
Proof. unfold From. by rewrite index_last. Qed.

Lemma From_foreign text c loc :
  From c (errorString text) loc
  = Ok (mkErr [mkMsg (errorString text) (Some loc) c text []]).
Proof. reflexivity. Qed.

(** [From] returns a stack for every error that is neither nil nor a
    pointer to a stack without frames. *)
Lemma From_total c e loc :
  e <> nil_error -> e <> error_ErrPtr [] -> exists w, From c e loc = Ok w.
Proof.
  intros Hnil Hempty. destruct e as [|text|m|fs|fs]; try done.
  - eexists. apply From_foreign.
  - eexists. reflexivity.
  - destruct fs as [|top init _] using rev_ind; [done|].
    eexists. apply From_stack.
  - unfold From. simpl. destruct (Err_Error_total (mkErr fs)) as [text ->].
    simpl. eauto.
Qed.

End FromProperties.

(** ** Evaluations in the runtime of the examples *)

Section Evaluations.

#[local] Existing Instance example_runtime.

(** C1, at the stack [one_frame]. *)
Lemma Wrap_preserves_Cause_witness :
  0 < Err_Len one_frame
  /\ (Wrap (as_error one_frame) ErrFatal "giving up" [] at_example []
        ≫= Err_Cause)
     = Err_Cause one_frame.
Proof.
  assert (Hlen : 0 < Err_Len one_frame) by reflexivity.
  split; [exact Hlen|].
  exact (proj2 (proj2 (Wrap_preserves_Cause one_frame ErrFatal "giving up" []
                         at_example [] Hlen))).
Defined.

(** C3. With a foreign error attached, the code puts one frame between the
    old frames and the top, where the specification's wording puts a
    connector frame and a synthetic frame. *)
Lemma With_foreign_differs_from_spec :
  Err_Len <$> Err_With one_frame (errorString "disk full")
                "while loading" [] at_example = Ok 2
  /\ Err_Len (With_spec [] (wrap_frame ConfigurationNotValid
                "service configuration could not be loaded" [] at_loadConfig)
                (errorString "disk full") "while loading" [] at_example) = 3
  /\ Err_With one_frame (errorString "disk full") "while loading" []
       at_example
     <> Ok (With_spec [] (wrap_frame ConfigurationNotValid
              "service configuration could not be loaded" [] at_loadConfig)
              (errorString "disk full") "while loading" [] at_example).
Proof.
  split; [reflexivity|split; [reflexivity|]].
  vm_compute. discriminate.
Qed.

(** C4. On the stack without frames, [Code] is the unknown code (1) before
    [With] and 0 after it. *)
Lemma With_empty_changes_Code :
  Err_Code (mkErr []) = Ok 1
  /\ (Err_With (mkErr []) (errorString "disk full") "while loading" []
        at_example ≫= Err_Code) = Ok 0
  /\ (Err_With (mkErr []) (errorString "disk full") "while loading" []
        at_example ≫= Err_Code) <> Err_Code (mkErr []).
Proof. split; [reflexivity|split; [reflexivity|]]. vm_compute. discriminate. Qed.

(** C4 (as amended), at the stack [one_frame]. *)
Lemma With_preserves_Code_witness :
  0 < Err_Len one_frame
  /\ exists c,
       Err_Code one_frame = Ok c
       /\ (Err_With one_frame (errorString "disk full") "while loading" []
             at_example ≫= Err_Code) = Ok c.
Proof.
  assert (Hlen : 0 < Err_Len one_frame) by reflexivity.
  split; [exact Hlen|].
  exact (With_preserves_Code one_frame (errorString "disk full")
           "while loading" [] at_example Hlen).
Defined.

(** C5. On the stack without frames [Code] is not the success code, and
    [Last] faults. *)
Lemma Code_empty_not_success :
  ~ (Err_Code (mkErr []) = Ok ErrSuccess
     /\ ~ faults (Err_Last (mkErr []))).
Proof. intros [Hcode _]. vm_compute in Hcode. discriminate. Qed.

(** C6. [Wrap] of nil calls [New] without the arguments: the verb is left
    without operand, where [New] with the arguments substitutes it. *)
Theorem Wrap_nil_drops_arguments :
  Wrap nil_error ErrFatal "cannot open %s" [VString "app.toml"] at_example []
  = Ok (New ErrFatal "cannot open %s" [] at_example [])
  /\ (Wrap nil_error ErrFatal "cannot open %s" [VString "app.toml"]
        at_example [] ≫= Err_Msg)
     = Ok "cannot open %!s(MISSING)"
  /\ Err_Msg (New ErrFatal "cannot open %s" [VString "app.toml"] at_example [])
     = Ok "cannot open app.toml".
Proof. split; [reflexivity|split; vm_compute; reflexivity]. Qed.

(** C7. For a stack whose top code 5000 is not registered, the rendered
    detail is the frame's error text, and [Detail] is the empty string
    although that text is not empty. *)
Theorem Detail_unregistered_empty :
  Codes_mocks !! 5000 = None
  /\ Err_Error (New 5000 "disk quota exceeded" [] at_example [])
     = Ok "disk quota exceeded"
  /\ (rmsg ← Err_Last (New 5000 "disk quota exceeded" [] at_example []);
      Ok (errMsgInt Codes_mocks rmsg))
     = Ok "disk quota exceeded (code:5000)"
  /\ Err_Detail Codes_mocks (New 5000 "disk quota exceeded" [] at_example [])
     = Ok "".
Proof. repeat split; vm_compute; reflexivity. Qed.

(** C8. The stack that [loadConfig] returns has four frames, not three. *)
Lemma loadConfig_Len_not_3 : Err_Len <$> example_loadConfig <> Ok 3.
Proof. vm_compute. discriminate. Qed.

(** C10. [From] faults on nil, where [Wrap] returns a stack; it also
    faults on a stack without frames, which is not nil. *)
Theorem From_faults :
  From ErrFatal nil_error at_example = Panic NilDereference
  /\ (exists w, Wrap nil_error ErrFatal "failed" [] at_example [] = Ok w)
  /\ as_error (mkErr []) <> nil_error
  /\ From ErrFatal (as_error (mkErr [])) at_example = Panic IndexOutOfRange.
Proof.
  split; [reflexivity|split; [eexists; reflexivity|split; [discriminate|]]].
  reflexivity.
Qed.

End Evaluations.

(** C8 (as amended). In the scenario of the mocks, whatever the call sites
    and symbols, the stack returned by [loadConfig] has code 1000, its
    cause reads "read: end of input", it has four frames, and it renders
    by default as "Configuration not valid (code:1000)". *)
Theorem loadConfig_scenario (symtab : gmap Z string)
    (loc_read loc_decode loc_load : Call) (tr : Trace) :
  (e ← @loadConfig (go symtab) loc_read loc_decode loc_load tr; Err_Code e)
  = Ok 1000
  /\ (e ← @loadConfig (go symtab) loc_read loc_decode loc_load tr;
      cause ← Err_Cause e; error_Error cause)
     = Ok "read: end of input"
  /\ (Err_Len <$> @loadConfig (go symtab) loc_read loc_decode loc_load tr)
     = Ok 4
  /\ (e ← @loadConfig (go symtab) loc_read loc_decode loc_load tr;
      @Err_String (go symtab) Codes_mocks e)
     = Ok "Configuration not valid (code:1000)".
Proof. repeat split; vm_compute; reflexivity. Qed.

(** ** The locking discipline *)

Module SyncProperties.

Import Sync.

(** A computation that returns, followed by another. *)
Lemma bind_run {A B} (m : action A) (k : A -> action B) st l st' a :
  m st = mkOutcome l st' (Ok a) ->
  (m ≫= k) st
  = mkOutcome (l ++ log (k a st')) (after (k a st')) (value (k a st')).
Proof.
  intros Hm. unfold mbind, action_bind. rewrite Hm. by destruct (k a st').
Qed.

(** What [Len], [Last] and [Push] do on a stack whose mutex exists and is
    free: they hold the mutex around their accesses, leave it free, and
    compute what the functions on frames compute. *)
Lemma Len_run fs :
  Len (mkShared fs (Some false))
  = mkOutcome [PkgLock; PkgUnlock; StackLock; ReadErrs; StackUnlock]
      (mkShared fs (Some false)) (Ok (Err_Len (mkErr fs))).
Proof. reflexivity. Qed.

Lemma Push_run fs ms :
  Push ms (mkShared fs (Some false))
  = mkOutcome [PkgLock; PkgUnlock; StackLock; ReadErrs; WriteErrs; StackUnlock]
      (mkShared (errs (Err_Push (mkErr fs) ms)) (Some false)) (Ok tt).
Proof. reflexivity. Qed.

Lemma Last_run init top :
  Last (mkShared (init ++ [top]) (Some false))
  = mkOutcome [PkgLock; PkgUnlock; StackLock; ReadErrs; ReadErrs; StackUnlock]
      (mkShared (init ++ [top]) (Some false)) (Ok top).
Proof.
  unfold Last, Lock, mbind, action_bind. cbn -[index len].
  rewrite index_last. reflexivity.
Qed.

(** A mutex that does not exist yet is created under the package mutex. *)
Lemma Len_run_nil_mutex fs :
  Len (mkShared fs None)
  = mkOutcome [PkgLock; NewMutex; PkgUnlock; StackLock; ReadErrs; StackUnlock]
      (mkShared fs (Some false)) (Ok (Err_Len (mkErr fs))).
Proof. reflexivity. Qed.

Lemma primitives_guarded fs init top ms :
  guarded false (log (Len (mkShared fs (Some false)))) = true
  /\ guarded false (log (Len (mkShared fs None))) = true
  /\ guarded false (log (Push ms (mkShared fs (Some false)))) = true
  /\ guarded false (log (Last (mkShared (init ++ [top]) (Some false)))) = true.
Proof.
  rewrite Len_run, Len_run_nil_mutex, Push_run, Last_run. by repeat split.
Qed.

(** On a stack without frames [Last] faults while it holds the mutex, and
    the mutex stays locked. *)
Lemma Last_empty_keeps_lock :
  value (Last (mkShared [] (Some false))) = Panic IndexOutOfRange
  /\ mux (after (Last (mkShared [] (Some false)))) = Some true.
Proof. split; vm_compute; reflexivity. Qed.

Lemma Trace_run st :
  Trace st = mkOutcome [ReadErrs] st (Ok (Err_Trace (mkErr (frames st)))).
Proof. reflexivity. Qed.

Lemma Cause_run f fs :
  Cause (mkShared (f :: fs) (Some false))
  = mkOutcome
      [PkgLock; PkgUnlock; StackLock; ReadErrs; StackUnlock; ReadErrs]
      (mkShared (f :: fs) (Some false)) (Ok (error_Msg f)).
Proof.
  unfold Cause. rewrite (bind_run _ _ _ _ _ _ (Len_run (f :: fs))).
  replace (0 <? Err_Len (mkErr (f :: fs))) with true; [reflexivity|].
  symmetry. apply Z.ltb_lt. unfold Err_Len, len. simpl. lia.
Qed.

Lemma With_pop_run init top :
  With_pop (mkShared (init ++ [top]) (Some false))
  = mkOutcome
      [PkgLock; PkgUnlock; StackLock; ReadErrs; ReadErrs; StackUnlock;
       ReadErrs; ReadErrs; WriteErrs]
      (mkShared init (Some false)) (Ok top).
Proof.
  unfold With_pop. rewrite (bind_run _ _ _ _ _ _ (Last_run init top)).
  unfold mbind, action_bind, read_errs, lift. cbn [frames].
  rewrite slice_to_last. reflexivity.
Qed.

(** The results agree with the functions on frames. *)
Lemma Cause_value f fs :
  value (Cause (mkShared (f :: fs) (Some false))) = Err_Cause (mkErr (f :: fs)).
Proof. by rewrite Cause_run, Err_Cause_cons. Qed.

(** C9. [Trace] reads [errs] and touches no mutex at all; [Cause] reads
    frame 0 after [Len] has released the mutex; [With] cuts the top frame
    off [errs] after [Last] has released the mutex. *)
Theorem accesses_outside_lock :
  (forall st, log (Trace st) = [ReadErrs])
  /\ (forall st, guarded false (log (Trace st)) = false)
  /\ (forall f fs,
        guarded false (log (Cause (mkShared (f :: fs) (Some false)))) = false)
  /\ (forall init top,
        guarded false (log (With_pop (mkShared (init ++ [top]) (Some false))))
        = false).
Proof.
  split; [reflexivity|split; [reflexivity|split]].
  - intros f fs. by rewrite Cause_run.
  - intros init top. by rewrite With_pop_run.
Qed.

End SyncProperties.

(** ** More on Wrap: the top frame, the cause, chains *)

Section WrapMore.

Context `{GoRuntime}.

Implicit Types (e : error) (fs : list Msg) (c : Code) (format : string)
  (data : list any) (loc : Call) (tr : Trace).

Lemma Wrap_snoc e c format data loc tr :
  e <> nil_error ->
  exists init,
    Wrap e c format data loc tr
    = Ok (mkErr (init ++ [wrap_frame c format data loc])).
Proof.
  intros Hnil. destruct e as [|text|m|fs|fs]; [done|..].
  - by exists [mkMsg (errorString text) (Some loc) 0 text []].
  - by exists [m].
  - by exists fs.
  - unfold Wrap. simpl. destruct (Err_Error_total (mkErr fs)) as [text ->].
    by exists [mkMsg (error_Err fs) (Some loc) 0 text []].
Qed.

(** [Wrap] faults on a nil [*Err] held in a non-nil interface. For every
    other argument, nil included, the new stack reports the code and the
    call site of this [Wrap]; its message and error text are the formatted
    message, formatted without the arguments when nil was wrapped. *)
Theorem Wrap_top_frame c format data loc tr :
  Wrap_arg nil_ErrPtr c format data loc tr = Panic NilDereference
  /\ forall e,
       let text :=
         Sprintf format (match e with nil_error => [] | _ => data end) in
       (Wrap_arg (value e) c format data loc tr ≫= Err_Code) = Ok c
       /\ (Wrap_arg (value e) c format data loc tr ≫= Err_Caller)
          = Ok (Some loc)
       /\ (Wrap_arg (value e) c format data loc tr ≫= Err_Msg) = Ok text
       /\ (Wrap_arg (value e) c format data loc tr ≫= Err_Error) = Ok text.
Proof.
  split; [reflexivity|]. intros e. cbn [Wrap_arg].
  assert (Hcases : e = nil_error \/ e <> nil_error)
    by (destruct e; (by left) || (by right)).
  destruct Hcases as [->|Hnil]; [by repeat split|].
  destruct (Wrap_snoc e c format data loc tr Hnil) as [init ->].
  replace (match e with nil_error => [] | _ => data end) with data
    by (by destruct e).
  cbn [mbind result_bind]. unfold Err_Caller.
  rewrite Err_Code_snoc, Err_Msg_snoc, Err_Error_snoc, Err_Len_pos,
    Err_Last_snoc.
  by repeat split.
Qed.

(** Wrapping an error that is not a stack keeps its text: the cause of the
    new stack reads what the wrapped error read. *)
Theorem Wrap_Cause_text e c format data loc tr :
  e <> nil_error ->
  (forall fs, e <> error_ErrPtr fs) ->
  (w ← Wrap e c format data loc tr; cause ← Err_Cause w; error_Error cause)
  = error_Error e
  /\ exists text, error_Error e = Ok text.
Proof.
  intros Hnil Hptr. split; [|by apply error_Error_total].
  destruct e as [|text|m|fs|fs]; [done|done|done|by destruct (Hptr fs)|].
  unfold Wrap. simpl error_Error.
  destruct (Err_Error_total (mkErr fs)) as [text Htext]. rewrite Htext.
  cbn [mbind result_bind]. unfold Err_Push. cbn [errs app].
  rewrite Err_Cause_cons. cbn [mbind result_bind error_Error].
  unfold Msg_Error. rewrite Msg_String_unfold. exact Htext.
Qed.

Lemma last_cons_default {A} (x d : A) (l : list A) :
  List.last (x :: l) d = List.last l x.
Proof.
  revert x d. induction l as [|y l IH]; intros x d; [done|].
  change (List.last (x :: y :: l) d) with (List.last (y :: l) d).
  by rewrite !IH.
Qed.

Lemma wrap_chain_stack fs layers tr :
  wrap_chain (error_ErrPtr fs) layers tr
  = Ok (error_ErrPtr (fs ++ map layer_frame layers)).
Proof.
  revert fs. induction layers as [|l layers IH]; intros fs.
  - simpl. by rewrite app_nil_r.
  - cbn [wrap_chain]. rewrite Wrap_stack. cbn [mbind result_bind].
    unfold as_error. cbn [errs]. rewrite IH. by rewrite <- app_assoc.
Qed.

(** A foreign error handed up through [n] wrapping functions, [n >= 1],
    arrives as a stack of [n + 1] frames: a root frame with code 0 that
    holds the error, then one frame per function in calling order. Its
    code is the one given by the last function, and its cause still reads
    the text of the foreign error. *)
Theorem wrap_chain_foreign text l layers tr :
  let frames :=
    mkMsg (errorString text) (Some (layer_loc l)) 0 text []
    :: map layer_frame (l :: layers) in
  wrap_chain (errorString text) (l :: layers) tr = Ok (error_ErrPtr frames)
  /\ Err_Len (mkErr frames) = len layers + 2
  /\ Err_Code (mkErr frames) = Ok (layer_code (List.last layers l))
  /\ (cause ← Err_Cause (mkErr frames); error_Error cause) = Ok text.
Proof.
  intros frames. subst frames. split; [|split; [|split]].
  - cbn [wrap_chain]. rewrite Wrap_foreign. cbn [mbind result_bind].
    unfold as_error. cbn [errs]. by rewrite wrap_chain_stack.
  - unfold Err_Len, len. cbn [errs map].
    rewrite !length_cons, length_map. lia.
  - assert (Hlast : exists init,
      mkMsg (errorString text) (Some (layer_loc l)) 0 text []
      :: map layer_frame (l :: layers)
      = init ++ [layer_frame (List.last layers l)]).
    { generalize (mkMsg (errorString text) (Some (layer_loc l)) 0 text []).
      revert l. induction layers as [|l' layers IH]; intros l root.
      - by exists [root].
      - destruct (IH l' (layer_frame l)) as [init Hinit].
        exists (root :: init). cbn [map] in *. rewrite <- app_comm_cons.
        f_equal. by rewrite Hinit, last_cons_default. }
    destruct Hlast as [init ->]. by rewrite Err_Code_snoc.
  - by rewrite Err_Cause_cons.
Qed.

End WrapMore.

(** ** More on With: length and cause *)

Section WithMore.

Context `{GoRuntime}.

Implicit Types (s : Err) (init fs : list Msg) (top : Msg) (e : error)
  (format : string) (data : list any) (loc : Call).

(** On a stack with a top frame, [With] adds one frame for a foreign error
    and for a pointer to a stack, two frames for a frame value, and one
    frame more than the attached stack has for a stack held by value; nil
    adds nothing. *)
Theorem With_Len init top e format data loc :
  Err_Len <$> Err_With (mkErr (init ++ [top])) e format data loc
  = Ok (Err_Len (mkErr (init ++ [top]))
        + match e with
          | nil_error => 0
          | errorString _ => 1
          | error_Msg _ => 2
          | error_ErrPtr _ => 1
          | error_Err fs => 1 + len fs
          end).
Proof.
  destruct e as [|text|m|fs|fs].
  - rewrite With_nil. cbn [fmap result_fmap]. f_equal. lia.
  - rewrite With_foreign. cbn [fmap result_fmap]. f_equal.
    unfold Err_Len. cbn [errs]. rewrite !len_app. unfold len. simpl. lia.
  - destruct (With_frame_value init top m format data loc) as (text & _ & ->).
    cbn [fmap result_fmap]. f_equal.
    unfold Err_Len. cbn [errs]. rewrite !len_app. unfold len. simpl. lia.
  - rewrite With_stack_pointer. cbn [fmap result_fmap]. f_equal.
    unfold Err_Len. cbn [errs]. rewrite !len_app. unfold len. simpl. lia.
  - rewrite With_stack_value. cbn [fmap result_fmap]. f_equal.
    unfold Err_Len. cbn [errs]. rewrite !len_app. unfold len. simpl. lia.
Qed.

(** On a stack of two or more frames, [With] leaves the cause as it was. *)
Theorem With_preserves_Cause s e format data loc :
  2 <= Err_Len s ->
  exists root,
    Err_Cause s = Ok (error_Msg root)
    /\ (Err_With s e format data loc ≫= Err_Cause) = Ok (error_Msg root).
Proof.
  destruct s as [fs]. intros Hlen.
  destruct fs as [|top fs _] using rev_ind;
    [unfold Err_Len, len in Hlen; simpl in Hlen; lia|].
  destruct fs as [|root init];
    [unfold Err_Len, len in Hlen; simpl in Hlen; lia|].
  exists root. rewrite <- app_comm_cons. split; [apply Err_Cause_cons|].
  rewrite app_comm_cons.
  destruct (With_keeps_top (root :: init) top e format data loc) as [mid ->].
  cbn [mbind result_bind]. rewrite <- app_comm_cons. apply Err_Cause_cons.
Qed.

(** On a stack of exactly one frame, that frame is both cause and top, and
    [With] puts the attached error below it: the cause becomes the frame
    that [With] inserted. *)
Theorem With_single_frame_Cause top text format data loc :
  Err_Cause (mkErr [top]) = Ok (error_Msg top)
  /\ (Err_With (mkErr [top]) (errorString text) format data loc ≫= Err_Cause)
     = Ok (error_Msg (mkMsg (errorString text) (Some loc) 0
                            (Sprintf format data) []))
  /\ (Err_With (mkErr [top]) (errorString text) format data loc ≫= Err_Last)
     = Ok top.
Proof.
  split; [apply Err_Cause_cons|].
  rewrite (With_foreign [] top). by split.
Qed.

End WithMore.

(** ** More on From *)

Section FromMore.

Implicit Types (s : Err) (c : Code) (e : error) (loc : Call).

(** On a stack with at least one frame [From] returns the stack with every
    frame as it was: the frame that [SetCode] returns is dropped, so the
    code of the stack stays what it was, whatever code is passed. *)
Theorem From_stack_unchanged s c loc :
  0 < Err_Len s ->
  From c (as_error s) loc = Ok s
  /\ (From c (as_error s) loc ≫= Err_Code) = Err_Code s.
Proof.
  destruct s as [fs]. intros Hlen.
  destruct (len_pos_snoc fs Hlen) as (init & top & ->).
  unfold as_error. cbn [errs]. by rewrite From_stack.
Qed.

(** For an error that is neither nil nor a pointer to a stack, [From]
    returns a stack of one frame that holds the error, the code passed,
    the call site and the error's text as message. *)
Theorem From_one_frame c e loc :
  e <> nil_error ->
  (forall fs, e <> error_ErrPtr fs) ->
  exists text,
    error_Error e = Ok text
    /\ From c e loc = Ok (mkErr [mkMsg e (Some loc) c text []]).
Proof.
  intros Hnil Hptr.
  destruct (error_Error_total e Hnil) as [text Htext]. exists text.
  split; [done|].
  destruct e as [|t|m|fs|fs]; [done| | |by destruct (Hptr fs)|];
    unfold From; by rewrite Htext.
Qed.

End FromMore.

(** ** The accessors read the top frame only *)

Section TopFrame.

Context `{GoRuntime}.
Variable Codes : gmap Z ErrCode.

Implicit Types (s : Err) (init : list Msg) (top : Msg) (e : error).

Lemma HTTPStatus_snoc init top :
  Err_HTTPStatus Codes (mkErr (init ++ [top]))
  = Ok (match Codes !! code top with
        | Some entry => ErrCode_HTTPStatus entry
        | None => 200
        end).
Proof.
  unfold Err_HTTPStatus. rewrite Err_Len_pos, Err_Last_snoc.
  cbn [mbind result_bind]. unfold Msg_Code. by destruct (Codes !! code top).
Qed.

Lemma Caller_snoc init top :
  Err_Caller (mkErr (init ++ [top])) = Ok (caller top).
Proof. unfold Err_Caller. by rewrite Err_Len_pos, Err_Last_snoc. Qed.

Lemma Detail_snoc init top :
  Err_Detail Codes (mkErr (init ++ [top])) = Err_Detail Codes (mkErr [top]).
Proof.
  destruct (Codes !! code top) as [entry|] eqn:Hcode.
  - rewrite (Detail_registered Codes init top entry Hcode). symmetry.
    apply (Detail_registered Codes [] top entry Hcode).
  - rewrite (Detail_unregistered Codes init top Hcode). symmetry.
    apply (Detail_unregistered Codes [] top Hcode).
Qed.

(** The default rendering is made from the top frame alone: its external
    message with the code, written through [Fprintf] as a format. *)
Lemma String_snoc init top :
  Err_String Codes (mkErr (init ++ [top]))
  = Ok (Sprintf (errMsgExt Codes top) []).
Proof.
  unfold Err_String, Err_Format. cbn [errs]. rewrite length_app.
  cbn [length]. rewrite Nat.add_1_r.
  change (Ascii.eqb "v" "v") with true. cbn [Format_loop].
  rewrite (index_lookup (init ++ [top]) (length init) top);
    [done|by rewrite lookup_app_r, Nat.sub_diag].
Qed.

(** The HTTP status of a stack is 200 for a stack without frames, for an
    unregistered top code and for a registered code whose status is 0, and
    the status registered for the code of the top frame otherwise; it is
    never 0. *)
Theorem HTTPStatus_value s :
  Err_HTTPStatus Codes s
  = Ok (match top ← last (errs s); Codes !! code top with
        | Some entry => if 0 =? HTTP entry then 200 else HTTP entry
        | None => 200
        end)
  /\ Err_HTTPStatus Codes s <> Ok 0.
Proof.
  destruct s as [fs]. destruct fs as [|top init _] using rev_ind.
  - by split.
  - rewrite HTTPStatus_snoc. cbn [errs]. rewrite last_snoc.
    cbn [mbind option_bind]. unfold ErrCode_HTTPStatus.
    destruct (Codes !! code top) as [entry|]; [|by split].
    split; [done|].
    destruct (Z.eqb_spec 0 (HTTP entry)) as [Hz|Hnz]; [done|].
    intros [= Hzero]. by rewrite Hzero in Hnz.
Qed.

(** [With] on a stack with at least one frame changes none of the
    top-of-stack readings: message, error text, caller, detail, HTTP status
    and default rendering are what they were. *)
Theorem With_preserves_top s e format data loc :
  0 < Err_Len s ->
  (Err_With s e format data loc ≫= Err_Msg) = Err_Msg s
  /\ (Err_With s e format data loc ≫= Err_Error) = Err_Error s
  /\ (Err_With s e format data loc ≫= Err_Caller) = Err_Caller s
  /\ (Err_With s e format data loc ≫= Err_Detail Codes) = Err_Detail Codes s
  /\ (Err_With s e format data loc ≫= Err_HTTPStatus Codes)
     = Err_HTTPStatus Codes s
  /\ (Err_With s e format data loc ≫= Err_String Codes)
     = Err_String Codes s
  /\ exists text, Err_String Codes s = Ok text.
Proof.
  destruct s as [fs]. intros Hlen.
  destruct (len_pos_snoc fs Hlen) as (init & top & ->).
  destruct (With_keeps_top init top e format data loc) as [mid ->].
  cbn [mbind result_bind]. rewrite app_assoc.
  rewrite !Err_Msg_snoc, !Err_Error_snoc, !Caller_snoc, !HTTPStatus_snoc,
    !String_snoc, (Detail_snoc (init ++ mid)), (Detail_snoc init).
  repeat split. eauto.
Qed.

(** For a stack whose top code is registered, [Detail] is the registered
    internal text, or the error text of the top frame when the registered
    internal text is empty. *)
Theorem Detail_of_registered init top entry :
  Codes !! code top = Some entry ->
  Err_Detail Codes (mkErr (init ++ [top]))
  = Ok (if String.eqb "" (Int entry) then Msg_String top else Int entry).
Proof. apply Detail_registered. Qed.

(** The default rendering is the external text of the top frame's code
    followed by the code, passed through [Fprintf] as a format; the
    external text is the registered one when the code is registered with a
    non-empty external text, and the error text of the top frame
    otherwise. The registered internal text takes no part in it. *)
Theorem String_external_text init top :
  let external :=
    match Codes !! code top with
    | Some entry => if String.eqb "" (Ext entry) then Msg_String top
                    else Ext entry
    | None => Msg_String top
    end in
  Err_String Codes (mkErr (init ++ [top]))
  = Ok (Sprintf
          (Sprintf "%s (code:%s)"
             [VString external; VString (Sprintf "%d" [VInt (code top)])])
          []).
Proof.
  intros external. subst external. rewrite String_snoc. do 2 f_equal.
  unfold errMsgExt, frame_code, Msg_Code, Msg_Error, ErrCode_String.
  destruct (Codes !! code top) as [entry|]; cbn [Ext].
  - by destruct (String.eqb "" (Ext entry)).
  - by destruct (String.eqb "" (Msg_String top)).
Qed.

(** [Trace] lists the caller of every frame, root first. *)
Theorem Trace_callers s : Err_Trace s = map caller (errs s).
Proof.
  unfold Err_Trace, Msg_Caller.
  assert (Hacc : forall fs acc,
    foldl (fun callers m => callers ++ [caller m]) acc fs
    = acc ++ map caller fs).
  { induction fs as [|f fs IH]; intros acc; simpl.
    - by rewrite app_nil_r.
    - rewrite IH. by rewrite <- app_assoc. }
  apply Hacc.
Qed.

End TopFrame.

(** ** Rendering with a flag *)

Section FlaggedFormat.

Context `{GoRuntime}.
Variable Codes : gmap Z ErrCode.

Implicit Types (st : flags) (frames : list Msg) (f : Msg) (str : string).

Lemma append_empty_r str : str +:+ "" = str.
Proof.
  induction str as [|a str IH]; [done|].
  change (String a (str +:+ "") = String a str). by rewrite IH.
Qed.

Lemma append_assoc (s1 s2 s3 : string) :
  (s1 +:+ s2) +:+ s3 = s1 +:+ (s2 +:+ s3).
Proof.
  induction s1 as [|a s1 IH]; [done|].
  change (String a ((s1 +:+ s2) +:+ s3) = String a (s1 +:+ (s2 +:+ s3))).
  by rewrite IH.
Qed.

Lemma concat_empty_cons (x : string) (xs : list string) :
  String.concat "" (x :: xs) = x +:+ String.concat "" xs.
Proof.
  destruct xs as [|y xs]; [|done].
  change (x = x +:+ ""). by rewrite append_empty_r.
Qed.

(** A frame with a caller has its text in every flagged mode. *)
Lemma flagged_text_located st k f :
  located f -> exists line, flagged_text Codes st k f = Ok line.
Proof.
  unfold located, flagged_text, extended_lines, trace_line, the_caller,
    Msg_Caller.
  intros Hloc. destruct (caller f) as [c|]; [|done].
  cbn [mbind result_bind]. destruct (plus st), (sharp st); eauto.
Qed.

Lemma Format_loop_flagged st frames k str :
  flagged st = true ->
  Format_loop Codes st frames (S k) str
  = (f ← index frames (Z.of_nat k);
     out ← flagged_text Codes st (Z.of_nat k) f;
     Format_loop Codes st frames k (str +:+ out)).
Proof.
  intros Hflag. cbn [Format_loop]. unfold flagged_text.
  destruct (index frames (Z.of_nat k)) as [f|why]; [|done].
  cbn [mbind result_bind].
  destruct st as [[] [] []]; cbn [plus sharp minus]; try done.
Qed.

(** The texts of the frames from index [off] on. *)
Lemma flagged_lines st frames (off : nat) :
  Forall located frames ->
  exists lines : list string,
    length lines = length frames
    /\ forall k f,
         frames !! k = Some f ->
         exists line,
           lines !! k = Some line
           /\ flagged_text Codes st (Z.of_nat (off + k)) f = Ok line.
Proof.
  intros Hloc. revert off.
  induction Hloc as [|f frames Hf _ IH]; intros off.
  - exists []. split; [done|]. intros k f Hk. by rewrite lookup_nil in Hk.
  - destruct (flagged_text_located st (Z.of_nat off) f Hf) as [line Hline].
    destruct (IH (S off)) as (lines & Hlen & Hlines).
    exists (line :: lines). split; [simpl; by rewrite Hlen|].
    intros [|k] g Hk; simpl in Hk.
    + injection Hk as <-. exists line. by rewrite Nat.add_0_r.
    + destruct (Hlines k g Hk) as (l & Hl & Htext). exists l.
      split; [done|]. by rewrite Nat.add_succ_r.
Qed.

(** With a flag set and a caller in every frame, [Format] with the verb
    [v] does not fault and writes the texts of all frames, the most recent
    frame first and the root last, each under its index in the stack, with
    white space trimmed at both ends. *)
Theorem Format_flagged st (s : Err) :
  flagged st = true ->
  Forall located (errs s) ->
  exists lines : list string,
    length lines = length (errs s)
    /\ (forall k f,
          errs s !! k = Some f ->
          exists line,
            lines !! k = Some line
            /\ flagged_text Codes st (Z.of_nat k) f = Ok line)
    /\ Err_Format Codes st "v" s
       = Ok (Sprintf "%s"
               [VString (Trim (String.concat "" (reverse lines))
                              [" "; ascii_of_nat 10; ascii_of_nat 9]%char)]).
Proof.
  destruct s as [frames]. cbn [errs]. intros Hflag Hloc.
  destruct (flagged_lines st frames 0 Hloc) as (lines & Hlen & Hlines).
  exists lines. split; [done|split; [exact Hlines|]].
  unfold Err_Format. change (Ascii.eqb "v" "v") with true. cbn [errs].
  assert (Hloop : forall n str,
    (n <= length frames)%nat ->
    Format_loop Codes st frames n str
    = Ok (Sprintf "%s"
            [VString (Trim (str +:+ String.concat "" (reverse (take n lines)))
                           [" "; ascii_of_nat 10; ascii_of_nat 9]%char)])).
  { induction n as [|k IH]; intros str Hn.
    - cbn [Format_loop]. rewrite take_0. simpl String.concat.
      by rewrite append_empty_r.
    - rewrite Format_loop_flagged by done.
      destruct (lookup_lt_is_Some_2 frames k) as [f Hf]; [lia|].
      rewrite (index_lookup frames k f Hf). cbn [mbind result_bind].
      destruct (Hlines k f Hf) as (line & Hline & Htext).
      simpl in Htext. rewrite Htext. cbn [mbind result_bind].
      rewrite IH by lia.
      rewrite (take_S_r lines k line Hline), reverse_snoc,
        concat_empty_cons, append_assoc.
      done. }
  rewrite (Hloop (length frames) "") by lia.
  by rewrite <- Hlen, firstn_all.
Qed.

Ltac located_frames :=
  unfold returns_located, wrap_frame, connector, New, Err_Push; cbn [errs];
  rewrite ?Forall_app, ?Forall_cons, ?Forall_nil, ?Forall_singleton;
  intuition (try done).

(** Frames with a caller stay frames with a caller: [New] builds one, and
    for every value of [error] whose frames have one, [Wrap] and [With]
    return, without faulting, stacks in which every frame has a caller.
    On a nil [*Err], which hands in no frames, [Wrap] faults. *)
Theorem located_preserved (s : Err) (e : error) c format data loc tr :
  Forall located (errs s) ->
  located_error e ->
  Forall located (errs (New c format data loc tr))
  /\ returns_located (Wrap_arg (value e) c format data loc tr)
  /\ returns_located (Err_With s e format data loc)
  /\ Wrap_arg nil_ErrPtr c format data loc tr = Panic NilDereference.
Proof.
  intros Hs He. cbn [Wrap_arg].
  cut (Forall located (errs (New c format data loc tr))
       /\ returns_located (Wrap e c format data loc tr)
       /\ returns_located (Err_With s e format data loc)).
  { intros (Hnew & Hwrap & Hwith).
    split; [exact Hnew|split; [exact Hwrap|split; [exact Hwith|reflexivity]]]. }
  assert (Hnew : forall e' c' text, located (mkMsg e' (Some loc) c' text []))
    by done.
  destruct s as [frames]. cbn [errs] in Hs.
  split; [|split].
  - located_frames.
  - destruct e as [|text|m|fs|fs]; simpl in He.
    + rewrite Wrap_nil. located_frames.
    + rewrite Wrap_foreign. located_frames.
    + rewrite Wrap_frame_value. located_frames.
    + rewrite Wrap_stack. located_frames.
    + unfold Wrap. simpl. destruct (Err_Error_total (mkErr fs)) as [text ->].
      simpl. located_frames.
  - destruct frames as [|top init _] using rev_ind.
    + destruct e; simpl; located_frames.
    + apply Forall_app in Hs as [Hinit Htop].
      rewrite Forall_singleton in Htop.
      destruct e as [|text|m|fs|fs]; simpl in He.
      * rewrite With_nil. located_frames.
      * rewrite With_foreign. located_frames.
      * destruct (With_frame_value init top m format data loc)
          as (text & _ & ->).
        located_frames.
      * rewrite With_stack_pointer. located_frames.
      * rewrite With_stack_value. located_frames.
Qed.

End FlaggedFormat.

(** ** The decode helper and the helpers on codes *)

Section Decode.

Context `{GoRuntime}.

Implicit Types (Codes : gmap Z ErrCode) (c : Code) (loc : Call) (tr : Trace).

(** With the codes 0 and 1 registered: nil decodes to the success code and
    its external text; a pointer to a stack to the code of its top frame
    and its default rendering (the unknown code for a stack without
    frames); any other value to the unknown code and its external text,
    whatever the error says. On a nil [*Err] held in a non-nil interface
    [DecodeErr] faults. *)
Theorem DecodeErr_registered Codes success unknown :
  Codes !! ErrSuccess = Some success ->
  Codes !! ErrUnknown = Some unknown ->
  DecodeErr_arg Codes (value nil_error) = Ok (ErrSuccess, Ext success)
  /\ (forall init top,
        DecodeErr_arg Codes (value (error_ErrPtr (init ++ [top])))
        = Ok (code top, Sprintf (errMsgExt Codes top) []))
  /\ (exists text,
        DecodeErr_arg Codes (value (error_ErrPtr [])) = Ok (ErrUnknown, text))
  /\ (forall text,
        DecodeErr_arg Codes (value (errorString text))
        = Ok (ErrUnknown, Ext unknown))
  /\ (forall m,
        DecodeErr_arg Codes (value (error_Msg m))
        = Ok (ErrUnknown, Ext unknown))
  /\ (forall fs,
        DecodeErr_arg Codes (value (error_Err fs))
        = Ok (ErrUnknown, Ext unknown))
  /\ DecodeErr_arg Codes nil_ErrPtr = Panic NilDereference.
Proof.
  intros Hsuccess Hunknown.
  unfold DecodeErr_arg, DecodeErr, Codes_String. rewrite Hsuccess, Hunknown.
  split; [done|split; [|split; [|by repeat split]]].
  - intros init top. by rewrite Err_Code_snoc, String_snoc.
  - eexists. reflexivity.
Qed.

(** A registry from which the success code, or the unknown code, is
    missing makes [DecodeErr] fault on nil, or on a foreign error. *)
Theorem DecodeErr_unregistered Codes text :
  DecodeErr (delete ErrSuccess Codes) nil_error = Panic NilDereference
  /\ DecodeErr (delete ErrUnknown Codes) (errorString text)
     = Panic NilDereference.
Proof.
  unfold DecodeErr, Codes_String. by rewrite !lookup_delete_eq.
Qed.

(** The codes that the package's [init()] registers. *)
Lemma Codes_init_lookup c :
  c ∉ [0; 1; 2; 3; 101; 102; 103; 105; 106; 107; 111] ->
  Codes_init !! c = None.
Proof.
  intros Hc. unfold Codes_init.
  rewrite !not_elem_of_cons in Hc.
  repeat (rewrite lookup_insert_ne; [|unfold ErrTypeConversionFailed,
    ErrEncodingYaml, ErrEncodingToml, ErrEncodingJSON, ErrDecodingYaml,
    ErrDecodingToml, ErrDecodingJSON, ErrCodeNotFound, ErrFatal, ErrUnknown,
    ErrSuccess; intuition congruence]).
  apply lookup_empty.
Qed.

(** After [init()], [AsError] returns a stack of one frame with the code
    and its external text for the eleven registered codes, each of which
    has HTTP status 200, and faults for every other code, the declared
    codes [ErrDecodingFailed], [ErrEncodingFailed], [ErrInvalidJSON],
    [ErrInvalidToml] and [ErrInvalidYaml] among them. *)
Theorem AsError_after_init loc tr :
  (forall c,
     c ∈ [0; 1; 2; 3; 101; 102; 103; 105; 106; 107; 111] ->
     exists entry,
       Codes_init !! c = Some entry
       /\ ErrCode_HTTPStatus entry = 200
       /\ Code_AsError Codes_init c loc tr
          = Ok (New c (Ext entry) [] loc tr))
  /\ (forall c,
        c ∉ [0; 1; 2; 3; 101; 102; 103; 105; 106; 107; 111] ->
        Code_AsError Codes_init c loc tr = Panic NilDereference)
  /\ Forall (fun c => Code_AsError Codes_init c loc tr = Panic NilDereference)
       [ErrDecodingFailed; ErrEncodingFailed; ErrInvalidJSON; ErrInvalidToml;
        ErrInvalidYaml].
Proof.
  assert (Hout : forall c,
    c ∉ [0; 1; 2; 3; 101; 102; 103; 105; 106; 107; 111] ->
    Code_AsError Codes_init c loc tr = Panic NilDereference).
  { intros c Hc. unfold Code_AsError, Codes_String.
    by rewrite (Codes_init_lookup c Hc). }
  split; [|split; [exact Hout|]].
  - intros c Hc. rewrite !elem_of_cons, elem_of_nil in Hc.
    unfold Code_AsError, Codes_String.
    destruct Hc as [->|[->|[->|[->|[->|[->|[->|[->|[->|[->|[->|[]]]]]]]]]]]];
      eexists; (split; [vm_compute; reflexivity|split; reflexivity]).
  - repeat constructor; apply Hout; rewrite !not_elem_of_cons;
      unfold ErrDecodingFailed, ErrEncodingFailed, ErrInvalidJSON,
        ErrInvalidToml, ErrInvalidYaml;
      (repeat split; try discriminate); apply not_elem_of_nil.
Qed.

End Decode.

(** ** Capturing callers *)

Section CaptureProperties.

Context `{GoStrings}.

Implicit Types (stack : list frame) (fr : frame).

Lemma getCaller_loop_drop stack fuel a :
  (a <= length stack)%nat ->
  (length stack - a < fuel)%nat ->
  getCaller_loop stack fuel a
  = Some (match list_find (fun fr => outside_package (frame_file fr) = true)
                  (drop a stack) with
          | Some (_, fr) => call_of fr
          | None => no_caller
          end).
Proof.
  revert a. induction fuel as [|fuel IH]; intros a Ha Hfuel; [lia|].
  cbn [getCaller_loop]. unfold runtime_Caller.
  destruct (stack !! a) as [fr|] eqn:Hfr.
  - rewrite (drop_S stack fr a Hfr). cbn [list_find].
    pose proof (lookup_lt_Some _ _ _ Hfr) as Hlt.
    destruct (outside_package (frame_file fr)) eqn:Hout.
    + by rewrite decide_True.
    + rewrite decide_False by done. rewrite IH by lia.
      by destruct (list_find _ (drop (S a) stack)) as [[i fr']|].
  - apply lookup_ge_None in Hfr. by rewrite drop_ge.
Qed.

(** [getCaller] returns: it answers the first frame of the call stack
    whose file is outside the package or is one of its test files, and a
    caller that is not ok, with empty file, line 0 and pc 0, when the call
    stack has no such frame. *)
Theorem getCaller_first_outside stack :
  getCaller stack
  = Some (match list_find (fun fr => outside_package (frame_file fr) = true)
                  stack with
          | Some (_, fr) => call_of fr
          | None => no_caller
          end).
Proof.
  unfold getCaller. rewrite getCaller_loop_drop by (simpl; lia).
  by rewrite drop_0.
Qed.

Lemma getTrace_loop_drop stack fuel a trace :
  (a <= length stack)%nat ->
  (length stack - a < fuel)%nat ->
  getTrace_loop stack fuel a trace
  = Some (trace ++ map (fun fr => Some (call_of fr)) (drop a stack)).
Proof.
  revert a trace. induction fuel as [|fuel IH]; intros a trace Ha Hfuel; [lia|].
  cbn [getTrace_loop]. unfold runtime_Caller.
  destruct (stack !! a) as [fr|] eqn:Hfr.
  - rewrite (drop_S stack fr a Hfr). cbn [map].
    pose proof (lookup_lt_Some _ _ _ Hfr) as Hlt.
    rewrite IH by lia. by rewrite <- app_assoc.
  - apply lookup_ge_None in Hfr. rewrite drop_ge by done.
    by rewrite app_nil_r.
Qed.

(** [getTrace] returns: it answers every frame of the call stack, in
    order from the innermost, each as a caller that is ok. *)
Theorem getTrace_all_frames stack :
  getTrace stack = Some (map (fun fr => Some (call_of fr)) stack)
  /\ length <$> getTrace stack = Some (length stack).
Proof.
  assert (Htrace :
    getTrace stack = Some (map (fun fr => Some (call_of fr)) stack)).
  { unfold getTrace. rewrite getTrace_loop_drop by (simpl; lia).
    by rewrite drop_0. }
  split; [done|]. rewrite Htrace. simpl. by rewrite length_map.
Qed.

End CaptureProperties.

(** ** The mutex after a fault *)

Module SyncEdge.

Import Sync.

(** [Last] on a stack without frames, its mutex free or not yet created,
    faults on the index after it has locked the mutex and before it
    unlocks it: the mutex stays locked, and the next call that locks, here
    [Len], does not get past [Lock]. *)
Theorem Last_empty_leaves_locked :
  Forall (fun m =>
            value (Last (mkShared [] m)) = Panic IndexOutOfRange
            /\ mux (after (Last (mkShared [] m))) = Some true
            /\ value (Len (after (Last (mkShared [] m)))) = Panic Deadlock)
         [None; Some false].
Proof. repeat constructor; vm_compute; reflexivity. Qed.

End SyncEdge.

(** ** What the locking methods do, step by step *)

Module SyncPrimitives.

Import Sync.

(** [Len], [Push] and [Last] on a stack whose mutex is free, and on one
    whose mutex does not exist yet: the package mutex is locked and
    unlocked first, and a missing mutex is created in between; then the
    stack's mutex is locked, [errs] is read (and, by [Push], assigned) and
    the stack's mutex is unlocked, in this order and with nothing else;
    the mutex exists and is free afterwards; [Len] returns the number of
    frames, [Last] the last frame, and [Push] leaves the frames followed
    by the pushed ones. *)
Theorem primitives_hold_lock fs init top ms :
  Len (mkShared fs (Some false))
  = mkOutcome [PkgLock; PkgUnlock; StackLock; ReadErrs; StackUnlock]
      (mkShared fs (Some false)) (Ok (len fs))
  /\ Len (mkShared fs None)
     = mkOutcome
         [PkgLock; NewMutex; PkgUnlock; StackLock; ReadErrs; StackUnlock]
         (mkShared fs (Some false)) (Ok (len fs))
  /\ Push ms (mkShared fs (Some false))
     = mkOutcome
         [PkgLock; PkgUnlock; StackLock; ReadErrs; WriteErrs; StackUnlock]
         (mkShared (fs ++ ms) (Some false)) (Ok tt)
  /\ Push ms (mkShared fs None)
     = mkOutcome
         [PkgLock; NewMutex; PkgUnlock; StackLock; ReadErrs; WriteErrs;
          StackUnlock]
         (mkShared (fs ++ ms) (Some false)) (Ok tt)
  /\ Last (mkShared (init ++ [top]) (Some false))
     = mkOutcome
         [PkgLock; PkgUnlock; StackLock; ReadErrs; ReadErrs; StackUnlock]
         (mkShared (init ++ [top]) (Some false)) (Ok top)
  /\ Last (mkShared (init ++ [top]) None)
     = mkOutcome
         [PkgLock; NewMutex; PkgUnlock; StackLock; ReadErrs; ReadErrs;
          StackUnlock]
         (mkShared (init ++ [top]) (Some false)) (Ok top).
Proof.
  split; [reflexivity|split; [reflexivity|split; [reflexivity|
    split; [reflexivity|split]]]].
  - apply SyncProperties.Last_run.
  - unfold Last, Lock, mbind, action_bind. cbn -[index len].
    rewrite index_last. reflexivity.
Qed.

End SyncPrimitives.

(** ** The properties above at concrete inputs *)

Section Instances.

#[local] Existing Instance example_runtime.

Lemma Wrap_Cause_text_witness :
  errorString "read: end of input" <> nil_error
  /\ (forall fs, errorString "read: end of input" <> error_ErrPtr fs)
  /\ (w ← Wrap (errorString "read: end of input") ErrUnknown
             "could not read configuration file" [] at_readConfig [];
      cause ← Err_Cause w; error_Error cause)
     = error_Error (errorString "read: end of input").
Proof.
  assert (Hnil : errorString "read: end of input" <> nil_error)
    by discriminate.
  assert (Hptr : forall fs, errorString "read: end of input" <> error_ErrPtr fs)
    by discriminate.
  split; [exact Hnil|split; [exact Hptr|]].
  exact (proj1 (Wrap_Cause_text (errorString "read: end of input") ErrUnknown
                  "could not read configuration file" [] at_readConfig []
                  Hnil Hptr)).
Defined.

Lemma With_preserves_Cause_witness :
  2 <= Err_Len (mkErr (errs one_frame ++ errs one_frame))
  /\ exists root,
       Err_Cause (mkErr (errs one_frame ++ errs one_frame))
       = Ok (error_Msg root)
       /\ (Err_With (mkErr (errs one_frame ++ errs one_frame))
             (errorString "disk full") "while loading" [] at_example
             ≫= Err_Cause)
          = Ok (error_Msg root).
Proof.
  assert (Hlen : 2 <= Err_Len (mkErr (errs one_frame ++ errs one_frame)))
    by (vm_compute; discriminate).
  split; [exact Hlen|].
  exact (With_preserves_Cause (mkErr (errs one_frame ++ errs one_frame))
           (errorString "disk full") "while loading" [] at_example Hlen).
Defined.

Lemma From_stack_unchanged_witness :
  0 < Err_Len one_frame
  /\ From ErrFatal (as_error one_frame) at_example = Ok one_frame.
Proof.
  assert (Hlen : 0 < Err_Len one_frame) by reflexivity.
  split; [exact Hlen|].
  exact (proj1 (From_stack_unchanged one_frame ErrFatal at_example Hlen)).
Defined.

Lemma From_one_frame_witness :
  errorString "my error" <> nil_error
  /\ (forall fs, errorString "my error" <> error_ErrPtr fs)
  /\ exists text,
       error_Error (errorString "my error") = Ok text
       /\ From ErrUnknown (errorString "my error") at_example
          = Ok (mkErr [mkMsg (errorString "my error") (Some at_example)
                             ErrUnknown text []]).
Proof.
  assert (Hnil : errorString "my error" <> nil_error) by discriminate.
  assert (Hptr : forall fs, errorString "my error" <> error_ErrPtr fs)
    by discriminate.
  split; [exact Hnil|split; [exact Hptr|]].
  exact (From_one_frame ErrUnknown (errorString "my error") at_example
           Hnil Hptr).
Defined.

Lemma With_preserves_top_witness :
  0 < Err_Len one_frame
  /\ (Err_With one_frame (errorString "disk full") "while loading" []
        at_example ≫= Err_String Codes_mocks)
     = Err_String Codes_mocks one_frame.
Proof.
  assert (Hlen : 0 < Err_Len one_frame) by reflexivity.
  split; [exact Hlen|].
  exact (proj1 (proj2 (proj2 (proj2 (proj2 (proj2
    (With_preserves_top Codes_mocks one_frame (errorString "disk full")
       "while loading" [] at_example Hlen))))))).
Defined.

Lemma one_frame_located : Forall located (errs one_frame).
Proof. repeat constructor. discriminate. Defined.

Lemma Format_flagged_witness :
  flagged (mkFlags true false false) = true
  /\ Forall located (errs one_frame)
  /\ exists lines : list string,
       length lines = length (errs one_frame)
       /\ (forall k f,
             errs one_frame !! k = Some f ->
             exists line,
               lines !! k = Some line
               /\ flagged_text Codes_mocks (mkFlags true false false)
                    (Z.of_nat k) f = Ok line)
       /\ Err_Format Codes_mocks (mkFlags true false false) "v" one_frame
          = Ok (Sprintf "%s"
                  [VString (Trim (String.concat "" (reverse lines))
                                 [" "; ascii_of_nat 10; ascii_of_nat 9]%char)]).
Proof.
  split; [reflexivity|split; [exact one_frame_located|]].
  exact (Format_flagged Codes_mocks (mkFlags true false false) one_frame
           eq_refl one_frame_located).
Defined.

Lemma located_preserved_witness :
  Forall located (errs one_frame)
  /\ located_error (errorString "disk full")
  /\ returns_located (Err_With one_frame (errorString "disk full")
                        "while loading" [] at_example).
Proof.
  split; [exact one_frame_located|split; [exact I|]].
  exact (proj1 (proj2 (proj2 (located_preserved one_frame
                         (errorString "disk full") ErrFatal "while loading" []
                         at_example [] one_frame_located I)))).
Defined.

Lemma DecodeErr_registered_witness :
  Codes_init !! ErrSuccess = Some (mkErrCode "ok" "ok" 0)
  /\ Codes_init !! ErrUnknown = Some (mkErrCode "an unknown error occurred" "" 0)
  /\ DecodeErr_arg Codes_init (value nil_error) = Ok (ErrSuccess, "ok")
  /\ DecodeErr_arg Codes_init (value (errorString "my error"))
     = Ok (ErrUnknown, "an unknown error occurred").
Proof.
  assert (Hs : Codes_init !! ErrSuccess = Some (mkErrCode "ok" "ok" 0))
    by (vm_compute; reflexivity).
  assert (Hu : Codes_init !! ErrUnknown
               = Some (mkErrCode "an unknown error occurred" "" 0))
    by (vm_compute; reflexivity).
  split; [exact Hs|split; [exact Hu|]].
  pose proof (DecodeErr_registered Codes_init _ _ Hs Hu) as Hdecode.
  split; [exact (proj1 Hdecode)|].
  exact (proj1 (proj2 (proj2 (proj2 Hdecode))) "my error").
Defined.

Lemma Detail_of_registered_witness :
  Codes_mocks !! code (wrap_frame ConfigurationNotValid
                         "service configuration could not be loaded" []
                         at_loadConfig)
  = Some (mkErrCode "Configuration not valid" "the configuration is invalid"
                    500)
  /\ Err_Detail Codes_mocks one_frame = Ok "the configuration is invalid".
Proof.
  assert (Hcode :
    Codes_mocks !! code (wrap_frame ConfigurationNotValid
                           "service configuration could not be loaded" []
                           at_loadConfig)
    = Some (mkErrCode "Configuration not valid"
                      "the configuration is invalid" 500))
    by (vm_compute; reflexivity).
  split; [exact Hcode|].
  exact (Detail_of_registered Codes_mocks [] _ _ Hcode).
Defined.

(** [s.With( *s, "m")] on a stack of two frames [A; T]: the result is
    [A; m; A; m; T], the connector standing where the copy of [T] was. *)
Example With_own_value :
  Err_With_shared
    (mkErr [wrap_frame ErrUnknown "A" [] at_readConfig;
            wrap_frame ErrFatal "T" [] at_loadConfig])
    [wrap_frame ErrUnknown "A" [] at_readConfig;
     wrap_frame ErrFatal "T" [] at_loadConfig]
    "m" [] at_example
  = Ok (mkErr [wrap_frame ErrUnknown "A" [] at_readConfig;
               connector "m" [] at_example;
               wrap_frame ErrUnknown "A" [] at_readConfig;
               connector "m" [] at_example;
               wrap_frame ErrFatal "T" [] at_loadConfig]).
Proof. vm_compute. reflexivity. Qed.

(** Inside [Wrap] called from [readConfig], the frames of the package's
    own files are passed over and the test file is answered, as in the
    documented trace. *)
Example getCaller_readConfig :
  @getCaller ascii_strings
    [mkFrame 1 "/src/github.com/lkcloud/errors/caller.go" 64;
     mkFrame 2 "/src/github.com/lkcloud/errors/err.go" 370;
     mkFrame 4040 mocks_test_go 40;
     mkFrame 4035 mocks_test_go 34;
     mkFrame 7 "/usr/local/go/src/testing/run_example.go" 63]
  = Some at_readConfig.
Proof. vm_compute. reflexivity. Qed.

End Instances.
